(** * Batch mixing and pipeline assembly of [dataset.py]

    A shallow embedding of [src/origin-source/dataset.py]: the two
    batch-mixing operators [MixUP] and [CutMix], the collate assembly of
    [get_dataloader], the transform builders and [get_dataset].

    Conventions of the embedding.
    - Python floats are read as exact rationals ([Q]); two floats are
      "numerically equal" when they are [Qeq].  The tensor arithmetic and
      the box of [CutMix] are computed without rounding; where rounding
      decides a result it is modelled: [fl64] rounds a rational to the
      nearest double for the division of [ValTransform], and the blend of
      [MixUP] is also given on machine doubles ([MixUP_blend_f64]).
    - Python ints are [Z]; tensor extents are [nat].
    - A tensor is a nested list; the image batch also records its
      [shape], as [batch.shape] is read by [CutMix].
    - Exceptions are values of [exn]; a call that may raise returns
      [Exc A].
    - Every random draw of a call is an explicit field of [Rng]. *)

From Stdlib Require Import String Ascii List Bool ZArith QArith Qround Qabs Lia Lqa.
From Stdlib Require Import Permutation PrimFloat.
Import ListNotations.

Local Open Scope Q_scope.

(** ** Exceptions *)

Inductive exn : Type :=
| KeyError (key : string)
| ValueError (msg : string)
| ZeroDivisionError (msg : string)
| RuntimeError (msg : string)
| IndexError (msg : string)
| AssertionError
| UnboundLocalError (name : string)
| OverflowError (msg : string).

Definition Exc (A : Type) : Type := (exn + A)%type.

Definition ret {A : Type} (a : A) : Exc A := inr a.
Definition raise {A : Type} (e : exn) : Exc A := inl e.
Definition bind {A B : Type} (c : Exc A) (k : A -> Exc B) : Exc B :=
  match c with
  | inl e => inl e
  | inr a => k a
  end.

Notation "x <- c ;; k" := (bind c (fun x => k))
  (at level 61, c at next level, right associativity).

(** ** Scalars *)

(** [a > b] on floats. *)
Definition Qgtb (a b : Q) : bool := negb (Qle_bool a b).

(** Truth value of a number: [if x:] holds unless [x] is zero. *)
Definition truthy (x : Q) : bool := negb (Qeq_bool x 0).

(** [int(x)]: truncation towards zero. *)
Definition py_int (x : Q) : Z := Z.quot (Qnum x) (Zpos (Qden x)).

(** [a / b] on two ints: true division, [ZeroDivisionError] on [b = 0]. *)
Definition py_truediv (a b : Z) : Exc Q :=
  if (b =? 0)%Z then raise (ZeroDivisionError "division by zero")
  else ret (inject_Z a / inject_Z b).

(** [int(0.5 * math.sqrt(ratio) * n)] for an extent [n].
    [math.sqrt] raises [ValueError] on a negative argument.  Otherwise the
    real number [0.5 * sqrt ratio * n] is the square root of
    [ratio * n * n / 4], and the integer part of a square root is the
    integer square root of the integer part, so the value is computed
    without leaving the rationals; [half_extent_spec] below states it as
    the usual bracketing of [int]. *)
Definition half_extent (ratio : Q) (n : nat) : Exc Z :=
  if Qgtb 0 ratio then raise (ValueError "math domain error")
  else
    let q := ratio * inject_Z (Z.of_nat n) * inject_Z (Z.of_nat n) / 4 in
    ret (Z.sqrt (Qfloor q)).

(** ** Strings *)

(** Strings of printable ASCII characters other than the quote and the
    backslash: their [repr] is the string between two quotes. *)
Definition plain_char (a : ascii) : bool :=
  let n := nat_of_ascii a in
  ((32 <=? n) && (n <=? 126) && negb (n =? 39) && negb (n =? 92))%nat.

Definition plain (s : string) : bool := forallb plain_char (list_ascii_of_string s).

(** [repr(s)] of a [str] whose characters are the code points 0 to 255.
    The quote is the single quote, unless the string holds one and no
    double quote.  The quote and the backslash are escaped with a
    backslash; tab, line feed and carriage return are written [\t], [\n],
    [\r]; a character that is not printable (below 32, 127 to 160, and
    173) is written [\xHH]; any other character stands for itself. *)
Definition hex_digit (n : nat) : ascii :=
  nth n (list_ascii_of_string "0123456789abcdef") "0"%char.

Definition printable_code (n : nat) : bool :=
  (((32 <=? n) && (n <? 127)) || ((161 <=? n) && negb (n =? 173)))%nat.

Definition repr_char (quote : nat) (a : ascii) : string :=
  let n := nat_of_ascii a in
  if ((n =? quote) || (n =? 92))%nat then String (ascii_of_nat 92) (String a EmptyString)
  else if (n =? 9)%nat then String (ascii_of_nat 92) "t"
  else if (n =? 10)%nat then String (ascii_of_nat 92) "n"
  else if (n =? 13)%nat then String (ascii_of_nat 92) "r"
  else if printable_code n then String a EmptyString
  else String (ascii_of_nat 92)
         (String "x"%char
            (String (hex_digit (n / 16)) (String (hex_digit (n mod 16)) EmptyString))).

Fixpoint repr_body (quote : nat) (s : string) : string :=
  match s with
  | EmptyString => EmptyString
  | String a s' => String.append (repr_char quote a) (repr_body quote s')
  end.

Definition has_code (n : nat) (s : string) : bool :=
  existsb (fun a => (nat_of_ascii a =? n)%nat) (list_ascii_of_string s).

Definition py_repr (s : string) : string :=
  let quote := if has_code 39 s && negb (has_code 34 s) then 34%nat else 39%nat in
  String (ascii_of_nat quote)
    (String.append (repr_body quote s) (String (ascii_of_nat quote) EmptyString)).

(** ** Doubles *)

(** [2 ^ e] for an integer exponent. *)
Definition pow2 (e : Z) : Q :=
  if (0 <=? e)%Z then inject_Z (2 ^ e) else 1 / inject_Z (2 ^ (- e)).

(** The integer part of the binary logarithm of a positive rational. *)
Definition ilog2 (a : Q) : Z :=
  let k := (Z.log2 (Qnum a) - Z.log2 (Zpos (Qden a)))%Z in
  if Qle_bool (pow2 k) a then k else (k - 1)%Z.

(** The nearest integer, ties to the even one. *)
Definition round_half_even (x : Q) : Z :=
  let f := Qfloor x in
  let r := x - inject_Z f in
  if Qle_bool r (1 # 2)
  then (if Qeq_bool r (1 # 2) then (if Z.even f then f else (f + 1)%Z) else f)
  else (f + 1)%Z.

(** The double nearest to a rational, ties to even: a significand of 53
    bits, the exponent not below that of the subnormal numbers.  The
    overflow to infinity is tested apart, by [fl64_overflows]. *)
Definition fl64_pos (a : Q) : Q :=
  let e := Z.max (ilog2 a - 52) (-1074) in
  inject_Z (round_half_even (a / pow2 e)) * pow2 e.

Definition fl64 (q : Q) : Q :=
  if Qeq_bool q 0 then 0
  else if Qle_bool 0 q then fl64_pos q else - fl64_pos (- q).

(** Whether rounding to a double gives an infinity: from the midpoint of
    the largest double and [2 ^ 1024] on. *)
Definition fl64_overflows (q : Q) : bool :=
  Qle_bool (inject_Z (2 ^ 1024 - 2 ^ 970)) (Qabs q).

(** ** Tensors *)

Fixpoint map2 {A B C : Type} (f : A -> B -> C) (l : list A) (m : list B) : list C :=
  match l, m with
  | a :: l', b :: m' => f a b :: map2 f l' m'
  | _, _ => []
  end.

Fixpoint mapi2_from {A B C : Type} (i : nat) (f : nat -> A -> B -> C)
    (l : list A) (m : list B) : list C :=
  match l, m with
  | a :: l', b :: m' => f i a b :: mapi2_from (S i) f l' m'
  | _, _ => []
  end.

Definition mapi2 {A B C : Type} (f : nat -> A -> B -> C) := mapi2_from 0 f.

(** [t.roll(shifts, 0)]: element [i] of the result is element
    [(i - shifts) mod n] of [t]. *)
Definition roll {A : Type} (shifts : nat) (t : list A) : list A :=
  match length t with
  | O => t
  | S _ as n => let k := (n - shifts mod n)%nat in skipn k t ++ firstn k t
  end.

Definition plane : Type := list (list Q).
Definition image : Type := list plane.

(** The image batch: [shape] is [(B, C, H, W)]. *)
Record Batch : Type := mkBatch {
  shape : nat * nat * nat * nat;
  data : list image
}.

(** The label tensor: rank 1 of class indices, or rank 2 of class weights. *)
Inductive Target : Type :=
| Hard (labels : list Z)
| Soft (weights : list (list Q)).

Definition ndim (t : Target) : nat :=
  match t with
  | Hard _ => 1
  | Soft _ => 2
  end.

(** [x * (1 - ratio) + y * ratio], pointwise on tensors of rank 1 to 4,
    computed without rounding; [lerp_f64] below is the same blend in the
    arithmetic of doubles. *)
Definition lerp (ratio x y : Q) : Q := x * (1 - ratio) + y * ratio.
Definition lerp1 (ratio : Q) : list Q -> list Q -> list Q := map2 (lerp ratio).
Definition lerp2 (ratio : Q) : plane -> plane -> plane := map2 (lerp1 ratio).
Definition lerp3 (ratio : Q) : image -> image -> image := map2 (lerp2 ratio).
Definition lerp4 (ratio : Q) : list image -> list image -> list image :=
  map2 (lerp3 ratio).

(** [F.one_hot(target, num_classes)] of the tensor library, on CPU,
    followed by the conversion to the batch's float type. *)
Definition one_hot_row (k : nat) (c : Z) : list Q :=
  map (fun j => if (Z.of_nat j =? c)%Z then 1 else 0) (seq 0 k).

Definition list_max (l : list Z) : Z := fold_right Z.max 0%Z l.

Definition one_hot (labels : list Z) (num_classes : Z) : Exc (list (list Q)) :=
  match labels with
  | [] =>
      if (num_classes <=? 0)%Z
      then raise (RuntimeError "Can not infer total number of classes from empty tensor.")
      else ret []
  | _ :: _ =>
      if existsb (fun c => (c <? 0)%Z) labels
      then raise (RuntimeError "Class values must be non-negative.")
      else if (num_classes =? -1)%Z
      then ret (map (one_hot_row (Z.to_nat (list_max labels + 1))) labels)
      else if (num_classes <=? list_max labels)%Z
      then raise (RuntimeError "Class values must be smaller than num_classes.")
      else ret (map (one_hot_row (Z.to_nat num_classes)) labels)
  end.

(** Lines 98-99 and 123-124: a rank-1 target is promoted to one-hot rows. *)
Definition promote (target : Target) (nclass : Z) : Exc (list (list Q)) :=
  match target with
  | Hard labels => one_hot labels nclass
  | Soft w => ret w
  end.

(** ** Random draws of one collate call *)

Record Rng : Type := mkRng {
  (** [random.choices] inside [RandomChoice]: its [random()] *)
  rand_choice : Q;
  (** [random.random()] of the skip test *)
  rand_skip : Q;
  (** first component of [torch._sample_dirichlet(tensor([a, a]))] *)
  dirichlet0 : Q -> Q;
  (** the two [random.random()] of the box centre *)
  rand_r : Q;
  rand_c : Q
}.

(** ** MixUP *)

Record MixUP : Type := mkMixUP {
  mixup_p : Q;
  mixup_alpha : Q;
  mixup_nclass : Z
}.

Definition default {A : Type} (d : A) (o : option A) : A :=
  match o with
  | Some a => a
  | None => d
  end.

(** [MixUP.__init__(self, p=0.5, alpha=1.0, nclass=1000)]; [None] is an
    argument left out. *)
Definition MixUP_init (p alpha : option Q) (nclass : option Z) : MixUP :=
  mkMixUP (default (1 # 2) p) (default 1 alpha) (default 1000%Z nclass).

(** Lines 98-109: the mixing steps. *)
Definition MixUP_mix (self : MixUP) (g : Rng) (batch : Batch) (target : Target)
    : Exc (Batch * Target) :=
  t <- promote target (mixup_nclass self) ;;
  let ratio := 1 - dirichlet0 g (mixup_alpha self) in
  let batch_roll := roll 1 (data batch) in
  let target_roll := roll 1 t in
  ret (mkBatch (shape batch) (lerp4 ratio (data batch) batch_roll),
       Soft (lerp2 ratio t target_roll)).

Definition MixUP_call (self : MixUP) (g : Rng) (batch : Batch) (target : Target)
    : Exc (Batch * Target) :=
  if Qgtb (mixup_p self) (rand_skip g) then ret (batch, target)
  else MixUP_mix self g batch target.

(** ** CutMix *)

Record CutMix : Type := mkCutMix {
  cutmix_p : Q;
  cutmix_alpha : Q;
  cutmix_nclass : Z
}.

Definition CutMix_init (p alpha : option Q) (nclass : option Z) : CutMix :=
  mkCutMix (default (1 # 2) p) (default 1 alpha) (default 1000%Z nclass).

(** A slice bound [i] of [t[i:...]] on an axis of length [n]. *)
Definition slice_bound (i : Z) (n : nat) : Z :=
  if (i <? 0)%Z then Z.max (i + Z.of_nat n) 0 else Z.min i (Z.of_nat n).

Definition in_slice (start stop : Z) (n i : nat) : bool :=
  (slice_bound start n <=? Z.of_nat i)%Z && (Z.of_nat i <? slice_bound stop n)%Z.

(** [dst[:, :, sx:ex, sy:ey] = src[:, :, sx:ex, sy:ey]]. *)
Definition paste_row (sy ey : Z) (dst src : list Q) : list Q :=
  mapi2 (fun j d s => if in_slice sy ey (length dst) j then s else d) dst src.

Definition paste_plane (sx ex sy ey : Z) (dst src : plane) : plane :=
  mapi2 (fun i d s => if in_slice sx ex (length dst) i then paste_row sy ey d s else d)
        dst src.

Definition paste (sx ex sy ey : Z) (dst src : list image) : list image :=
  map2 (map2 (paste_plane sx ex sy ey)) dst src.

(** Lines 132-140: the box [(start_x, end_x, start_y, end_y)], computed
    without rounding: where a product of floats falls within a rounding
    error of an integer, the code's [int] may differ by one from the value
    here. *)
Definition swap_box (ratio : Q) (H W : nat) (g : Rng) : Exc (Z * Z * Z * Z) :=
  height_half <- half_extent ratio H ;;
  width_half <- half_extent ratio W ;;
  let r := py_int (rand_r g * inject_Z (Z.of_nat H)) in
  let c := py_int (rand_c g * inject_Z (Z.of_nat W)) in
  let start_x := Z.max (r - height_half) 0 in
  let end_x := Z.min (r + height_half) (Z.of_nat H) in
  let start_y := Z.max (r - width_half) 0 in
  let end_y := Z.min (r + width_half) (Z.of_nat W) in
  ret (start_x, end_x, start_y, end_y).

(** Line 142: the ratio recomputed from the box. *)
Definition box_ratio (box : Z * Z * Z * Z) (H W : nat) : Exc Q :=
  let '(start_x, end_x, start_y, end_y) := box in
  q <- py_truediv ((end_x - start_x) * (end_y - start_y))
                  (Z.of_nat H * Z.of_nat W) ;;
  ret (1 - q).

(** Lines 123-147: the mixing steps. *)
Definition CutMix_mix (self : CutMix) (g : Rng) (batch : Batch) (target : Target)
    : Exc (Batch * Target) :=
  t <- promote target (cutmix_nclass self) ;;
  let '(_, _, H, W) := shape batch in
  let ratio := 1 - dirichlet0 g (cutmix_alpha self) in
  let batch_roll := roll 1 (data batch) in
  let target_roll := roll 1 t in
  box <- swap_box ratio H W g ;;
  let '(start_x, end_x, start_y, end_y) := box in
  ratio <- box_ratio box H W ;;
  ret (mkBatch (shape batch) (paste start_x end_x start_y end_y (data batch) batch_roll),
       Soft (lerp2 ratio t target_roll)).

Definition CutMix_call (self : CutMix) (g : Rng) (batch : Batch) (target : Target)
    : Exc (Batch * Target) :=
  if Qgtb (cutmix_p self) (rand_skip g) then ret (batch, target)
  else CutMix_mix self g batch target.

(** ** The collate step of [get_dataloader] *)

(** The callables collected in [mix_collate]. *)
Inductive MixOp : Type :=
| OpMixUP (m : MixUP)
| OpCutMix (c : CutMix).

Definition op_p (op : MixOp) : Q :=
  match op with
  | OpMixUP m => mixup_p m
  | OpCutMix c => cutmix_p c
  end.

Definition op_alpha (op : MixOp) : Q :=
  match op with
  | OpMixUP m => mixup_alpha m
  | OpCutMix c => cutmix_alpha c
  end.

Definition op_mix (op : MixOp) : Rng -> Batch -> Target -> Exc (Batch * Target) :=
  match op with
  | OpMixUP m => MixUP_mix m
  | OpCutMix c => CutMix_mix c
  end.

Definition op_call (op : MixOp) : Rng -> Batch -> Target -> Exc (Batch * Target) :=
  match op with
  | OpMixUP m => MixUP_call m
  | OpCutMix c => CutMix_call c
  end.

(** The fields of [args] read by [get_dataloader]. *)
Record LoaderArgs : Type := mkLoaderArgs {
  distributed : bool;
  mixup : Q;
  cutmix : Q;
  num_classes : Z;
  batch_size : Z;
  num_workers : Z;
  pin_memory : bool
}.

(** Lines 159-163. *)
Definition mix_collate (args : LoaderArgs) : list MixOp :=
  (if truthy (mixup args)
   then [OpMixUP (MixUP_init None (Some (mixup args)) (Some (num_classes args)))]
   else [])
  ++
  (if truthy (cutmix args)
   then [OpCutMix (CutMix_init None (Some (mixup args)) (Some (num_classes args)))]
   else []).

(** [RandomChoice(transforms)(batch, target)] with no weights: the callable
    at index [floor(random() * n)] is applied. *)
Definition RandomChoice_pick (transforms : list MixOp) (g : Rng) : option MixOp :=
  nth_error transforms
    (Z.to_nat (Qfloor (rand_choice g * inject_Z (Z.of_nat (length transforms))))).

Definition RandomChoice_call (transforms : list MixOp) (g : Rng)
    (batch : Batch) (target : Target) : Exc (Batch * Target) :=
  match RandomChoice_pick transforms g with
  | Some t => op_call t g batch target
  | None => raise (IndexError "list index out of range")
  end.

(** Lines 165-169, on the output of [default_collate]; [None] is
    [collate_fn = None]. *)
Definition collate_fn (args : LoaderArgs)
    : option (Rng -> Batch -> Target -> Exc (Batch * Target)) :=
  match mix_collate args with
  | [] => None
  | ops => Some (RandomChoice_call ops)
  end.

Inductive Sampler : Type :=
| DistributedSampler (shuffle : bool)
| RandomSampler
| SequentialSampler.

Record DataLoader (D : Type) : Type := mkDataLoader {
  dl_dataset : D;
  dl_batch_size : Z;
  dl_shuffle : bool;
  dl_sampler : Sampler;
  dl_num_workers : Z;
  dl_collate_fn : option (Rng -> Batch -> Target -> Exc (Batch * Target));
  dl_pin_memory : bool
}.

Arguments mkDataLoader {D}.
Arguments dl_collate_fn {D}.
Arguments dl_sampler {D}.

Section GetDataloader.

Variable D : Type.
(** [len(train_dataloader)] of the loader library. *)
Variable loader_len : DataLoader D -> Z.

(** Returns the two loaders and the value stored in
    [args.iter_per_epoch]. *)
Definition get_dataloader (train_dataset val_dataset : D) (args : LoaderArgs)
    : DataLoader D * DataLoader D * Z :=
  let '(train_sampler, val_sampler) :=
    if distributed args
    then (DistributedSampler true, DistributedSampler false)
    else (RandomSampler, SequentialSampler) in
  let train_dataloader :=
    mkDataLoader train_dataset (batch_size args) false train_sampler
                 (num_workers args) (collate_fn args) (pin_memory args) in
  let val_dataloader :=
    mkDataLoader val_dataset (batch_size args) false val_sampler
                 (num_workers args) None false in
  (train_dataloader, val_dataloader, loader_len train_dataloader).

End GetDataloader.

(** ** Transform builders *)

Inductive InterpolationMode : Type :=
| NEAREST | NEAREST_EXACT | BILINEAR | BICUBIC | BOX | HAMMING | LANCZOS.

(** [transforms.functional.InterpolationMode(interpolation)]: the enum
    member of that value, [ValueError] otherwise. *)
Definition InterpolationMode_of (s : string) : Exc InterpolationMode :=
  if String.eqb s "nearest" then ret NEAREST
  else if String.eqb s "nearest-exact" then ret NEAREST_EXACT
  else if String.eqb s "bilinear" then ret BILINEAR
  else if String.eqb s "bicubic" then ret BICUBIC
  else if String.eqb s "box" then ret BOX
  else if String.eqb s "hamming" then ret HAMMING
  else if String.eqb s "lanczos" then ret LANCZOS
  else raise (ValueError (String.append (py_repr s) " is not a valid InterpolationMode")).

(** An int or a pair of ints. *)
Inductive Size : Type :=
| Int (n : Z)
| Pair (h w : Z).

Inductive Transform : Type :=
| RandomHorizontalFlip (p : Q)
| RandAugment (interpolation : InterpolationMode)
| TrivialAugmentWide (interpolation : InterpolationMode)
| AutoAugment (policy : string) (interpolation : InterpolationMode)
| RandomResizedCrop (size : Size) (scale ratio : Q * Q) (interpolation : InterpolationMode)
| Resize (size : Size) (interpolation : InterpolationMode)
| RandomCrop (size : Size) (padding : Z)
| CenterCrop (size : Size)
| ToTensor
| Normalize (mean std : list Q)
| RandomErasing (p : Q).

Definition is_resize_stage (t : Transform) : bool :=
  match t with
  | RandomResizedCrop _ _ _ _ | Resize _ _ | RandomCrop _ _ => true
  | _ => false
  end.

(** [if auto_aug:] on an optional string. *)
Definition str_truthy (s : option string) : option string :=
  match s with
  | Some EmptyString => None
  | other => other
  end.

(** [TrainTransform.__init__]: the list given to [transforms.Compose].
    The [assert] of line 47 tests a string that always holds its literal
    text, hence is never empty: it passes.  [transforms.RandomErasing(p)]
    raises [ValueError] for a probability outside [[0,1]]. *)
Definition TrainTransform (resize : Size) (resize_mode : string) (pad : Z)
    (scale ratio : Q * Q) (hflip : Q) (auto_aug : option string) (remode : Q)
    (interpolation : string) (mean std : list Q) : Exc (list Transform) :=
  interpolation <- InterpolationMode_of interpolation ;;
  let transform_list := [] in
  let transform_list :=
    if truthy hflip then transform_list ++ [RandomHorizontalFlip hflip]
    else transform_list in
  let transform_list :=
    match str_truthy auto_aug with
    | Some a =>
        if String.prefix "ra" a then transform_list ++ [RandAugment interpolation]
        else if String.prefix "ta_wide" a
        then transform_list ++ [TrivialAugmentWide interpolation]
        else if String.prefix "aa" a
        then transform_list ++ [AutoAugment "imagenet" interpolation]
        else transform_list
    | None => transform_list
    end in
  transform_list <-
    (if String.eqb resize_mode "RandomResizedCrop"
     then ret (transform_list ++ [RandomResizedCrop resize scale ratio interpolation])
     else if String.eqb resize_mode "ResizeRandomCrop"
     then ret (transform_list ++ [Resize resize interpolation; RandomCrop resize pad])
     else
       let message :=
         String.append resize_mode " should be RandomResizedCrop and ResizeRandomCrop" in
       if (String.length message =? 0)%nat then raise AssertionError
       else ret transform_list) ;;
  let transform_list := transform_list ++ [ToTensor; Normalize mean std] in
  transform_list <-
    (if truthy remode
     then
       if Qgtb 0 remode || Qgtb remode 1
       then raise (ValueError "Random erasing probability should be between 0 and 1")
       else ret (transform_list ++ [RandomErasing remode])
     else ret transform_list) ;;
  ret transform_list.

(** [int(floor(n / crop))] for an int [n] and a double [crop]: [n] is
    converted to a double ([OverflowError] when too large), a zero divisor
    raises [ZeroDivisionError], the quotient is rounded to a double, and
    [floor] of an infinite quotient raises [OverflowError]. *)
Definition floor_div (n : Z) (crop : Q) : Exc Z :=
  if fl64_overflows (inject_Z n)
  then raise (OverflowError "int too large to convert to float")
  else if Qeq_bool crop 0 then raise (ZeroDivisionError "float division by zero")
  else
    let q := fl64 (inject_Z n) / crop in
    if fl64_overflows q
    then raise (OverflowError "cannot convert float infinity to integer")
    else ret (Qfloor (fl64 q)).

(** [ValTransform.__init__].  [crop_ptr] is the number written in the
    configuration; the float it denotes is the nearest double. *)
Definition ValTransform (size : Size) (resize_mode : string) (crop_ptr : Q)
    (interpolation : string) (mean std : list Q) : Exc (list Transform) :=
  interpolation <- InterpolationMode_of interpolation ;;
  let '(s0, s1) := match size with Int n => (n, n) | Pair h w => (h, w) end in
  let crop_ptr := fl64 crop_ptr in
  r0 <- floor_div s0 crop_ptr ;;
  r1 <- floor_div s1 crop_ptr ;;
  let resize := (r0, r1) in
  let resize :=
    if String.eqb resize_mode "resize_shorter" then Int (fst resize)
    else Pair (fst resize) (snd resize) in
  ret [Resize resize interpolation; CenterCrop (Pair s0 s1); ToTensor;
       Normalize mean std].

(** ** [get_dataset] *)

Inductive DatasetClass : Type :=
| ImageFolder | CIFAR10 | CIFAR100 | FashionMNIST.

Definition _dataset_dict : list (string * DatasetClass) :=
  [ ("ImageFolder"%string, ImageFolder);
    ("CIFAR10"%string, CIFAR10);
    ("CIFAR100"%string, CIFAR100);
    ("FashionMNIST"%string, FashionMNIST) ].

(** [d[key]] *)
Fixpoint dict_getitem {V : Type} (d : list (string * V)) (key : string) : Exc V :=
  match d with
  | [] => raise (KeyError key)
  | (k, v) :: d' => if String.eqb key k then ret v else dict_getitem d' key
  end.

Definition dict_keys {V : Type} (d : list (string * V)) : list string := map fst d.

(** [key in d.keys()] *)
Definition str_in (key : string) (keys : list string) : bool :=
  existsb (String.eqb key) keys.

(** [str(e)] of a raised exception; a [KeyError] prints the [repr] of its
    key. *)

Definition exn_message (e : exn) : string :=
  match e with
  | KeyError key => py_repr key
  | ValueError msg | ZeroDivisionError msg | RuntimeError msg | IndexError msg
  | OverflowError msg => msg
  | AssertionError => EmptyString
  | UnboundLocalError name =>
      String.append "local variable " (String.append (py_repr name)
        " referenced before assignment")
  end.

(** [sub in s] *)
Definition contains (s sub : string) : bool :=
  match String.index 0 sub s with
  | Some _ => true
  | None => false
  end.

(** The fields of [args] read by [get_dataset]. *)
Record DatasetArgs : Type := mkDatasetArgs {
  dataset_type : string;
  train_size : Size;
  train_resize_mode : string;
  random_crop_pad : Z;
  random_crop_scale : Q * Q;
  random_crop_ratio : Q * Q;
  hflip : Q;
  auto_aug : option string;
  remode : Q;
  interpolation : string;
  mean : list Q;
  std : list Q;
  test_size : Size;
  test_resize_mode : string;
  center_crop_ptr : Q;
  data_dir : string;
  train_split : string;
  val_split : string
}.

(** The two ways a dataset class is called. *)
Inductive CtorArgs : Type :=
| Positional (root : string) (transform : list Transform)
| Keywords (root : string) (train download : bool) (transform : list Transform).

(** What [get_dataset] has done so far, oldest first. *)
Inductive Event : Type :=
| BuiltTrainTransform
| BuiltValTransform
| CalledDataset (cls : DatasetClass) (a : CtorArgs).

(** Exceptions over a log of events. *)
Definition Build (A : Type) : Type := list Event -> list Event * Exc A.

Definition bret {A : Type} (a : A) : Build A := fun log => (log, ret a).
Definition bbind {A B : Type} (c : Build A) (k : A -> Build B) : Build B :=
  fun log =>
    match c log with
    | (log', inl e) => (log', inl e)
    | (log', inr a) => k a log'
    end.
Definition lift {A : Type} (c : Exc A) : Build A := fun log => (log, c).
Definition emit (ev : Event) : Build unit := fun log => (log ++ [ev], ret tt).

Notation "x <~ c ;; k" := (bbind c (fun x => k))
  (at level 61, c at next level, right associativity).

Section GetDataset.

Variable Dataset : Type.
(** The dataset classes of the vision library, and [dataset.classes]. *)
Variable construct : DatasetClass -> CtorArgs -> Exc Dataset.
Variable classes : Dataset -> list string.
Variable path_join : string -> string -> string.

Definition call_dataset (cls : DatasetClass) (a : CtorArgs) : Build Dataset :=
  _ <~ emit (CalledDataset cls a) ;;
  lift (construct cls a).

(** Returns the two datasets and the value stored in [args.num_classes]. *)
Definition get_dataset (args : DatasetArgs) : Build (Dataset * Dataset * Z) :=
  dataset_class <~ lift (dict_getitem _dataset_dict (dataset_type args)) ;;
  train_transform <~
    lift (TrainTransform (train_size args) (train_resize_mode args)
            (random_crop_pad args) (random_crop_scale args)
            (random_crop_ratio args) (hflip args) (auto_aug args) (remode args)
            (interpolation args) (mean args) (std args)) ;;
  _ <~ emit BuiltTrainTransform ;;
  val_transform <~
    lift (ValTransform (test_size args) (test_resize_mode args)
            (center_crop_ptr args) (interpolation args) (mean args) (std args)) ;;
  _ <~ emit BuiltValTransform ;;
  if String.eqb (dataset_type args) "ImageFolder" then
    train_dataset <~
      call_dataset dataset_class
        (Positional (path_join (data_dir args) (train_split args)) train_transform) ;;
    val_dataset <~
      call_dataset dataset_class
        (Positional (path_join (data_dir args) (val_split args)) val_transform) ;;
    bret (train_dataset, val_dataset, Z.of_nat (length (classes train_dataset)))
  else if str_in (dataset_type args) (dict_keys _dataset_dict) then
    train_dataset <~
      call_dataset dataset_class (Keywords (data_dir args) true true train_transform) ;;
    val_dataset <~
      call_dataset dataset_class (Keywords (data_dir args) false true val_transform) ;;
    bret (train_dataset, val_dataset, Z.of_nat (length (classes train_dataset)))
  else
    let message :=
      String.append (dataset_type args)
        " is not supported yet. Just make your own code for it" in
    if (String.length message =? 0)%nat then lift (raise AssertionError)
    else lift (raise (UnboundLocalError "train_dataset")).

End GetDataset.

(** ** Predicates used in the statements *)

(** [row.sum()] *)
Definition rsum (row : list Q) : Q := fold_right Qplus 0 row.

Definition rows_sum_to_1 (w : list (list Q)) : Prop :=
  Forall (fun row => rsum row == 1) w.

(** A rank-2 tensor has rows of one length. *)
Definition rectangular (w : list (list Q)) : Prop :=
  exists k : nat, Forall (fun row => length row = k) w.

(** The targets the label-mass invariant speaks of: hard, or soft with
    every row summing to 1. *)
Definition mass_ok (t : Target) : Prop :=
  match t with
  | Hard _ => True
  | Soft w => rectangular w /\ rows_sum_to_1 w
  end.

(** Numerical equality of tensors of rank 1 to 4. *)
Definition teq1 : list Q -> list Q -> Prop := Forall2 Qeq.
Definition teq2 : plane -> plane -> Prop := Forall2 teq1.
Definition teq3 : image -> image -> Prop := Forall2 teq2.
Definition teq4 : list image -> list image -> Prop := Forall2 teq3.

Definition op_nclass (op : MixOp) : Z :=
  match op with
  | OpMixUP m => mixup_nclass m
  | OpCutMix c => cutmix_nclass c
  end.

(** The nominal ratio of a call: [1 - dirichlet[0]]. *)
Definition op_ratio (op : MixOp) (g : Rng) : Q := 1 - dirichlet0 g (op_alpha op).

(** Inputs on which the mixing steps raise nothing: the target is soft
    or its labels fit the class count, and for [CutMix] the drawn ratio
    has a square root and the image has pixels. *)
Definition mix_ready (op : MixOp) (g : Rng) (batch : Batch) (target : Target) : Prop :=
  (exists t, promote target (op_nclass op) = inr t) /\
  match op with
  | OpMixUP _ => True
  | OpCutMix _ =>
      let '(_, _, H, W) := shape batch in
      0 <= op_ratio op g /\ (0 < H)%nat /\ (0 < W)%nat
  end.

(** What Section 7 of the specification asks of a configuration error: the
    build stops with nothing done, and the message of the raised error
    names the invalid value and every accepted one. *)
Definition fails_naming_accepted_set {A : Type} (r : list Event * Exc A)
    (value : string) (accepted : list string) : Prop :=
  exists e, r = ([], inl e) /\
    contains (exn_message e) value = true /\
    Forall (fun k => contains (exn_message e) k = true) accepted.

(** ** The blend of [MixUP] on doubles *)



(** ** Concrete inputs *)

Definition img_a : image := [[[1; 2]; [3; 4]]].
Definition img_b : image := [[[5; 6]; [7; 8]]].

(** Two 1x2x2 images with labels 0 and 1. *)
Definition two_images : Batch := mkBatch (2, 1, 2, 2)%nat [img_a; img_b].
Definition two_labels : Target := Hard [0; 1]%Z.

(** Two 1x4x4 images. *)
Definition img_c : image :=
  [[[1; 2; 3; 4]; [5; 6; 7; 8]; [9; 10; 11; 12]; [13; 14; 15; 16]]].
Definition img_d : image :=
  [[[0; 0; 0; 0]; [0; 0; 0; 0]; [0; 0; 0; 0]; [0; 0; 0; 0]]].
Definition two_wide_images : Batch := mkBatch (2, 1, 4, 4)%nat [img_c; img_d].

(** Skip draw 0.5, nominal ratio 0.01, box centre drawn at the corner. *)
Definition corner_draws : Rng := mkRng 0 (1 # 2) (fun _ => 99 # 100) 0 0.

(** Nominal ratio 0.25, row draw 0 and column draw 0.5. *)
Definition row0_col_half : Rng := mkRng 0 (1 # 2) (fun _ => 3 # 4) 0 (1 # 2).

(** A skip draw of 0.25. *)
Definition early_draws : Rng := mkRng 0 (1 # 4) (fun _ => 3 # 4) 0 (1 # 2).

(** Two 1x16x2 images. *)
Definition img_tall_a : image := [repeat [1; 2] 16].
Definition img_tall_b : image := [repeat [3; 4] 16].
Definition two_tall_images : Batch := mkBatch (2, 1, 16, 2)%nat [img_tall_a; img_tall_b].

(** Skip draw 0.75, nominal ratio 0.0625, row draw 0.75 and column draw
    0.5. *)
Definition tall_draws : Rng := mkRng 0 (3 # 4) (fun _ => 15 # 16) (3 # 4) (1 # 2).

(** [CutMix(nclass=2)]: [p] and [alpha] left to their defaults. *)
Definition cutmix_default : CutMix := CutMix_init None None (Some 2%Z).

Definition cutmix_p0 : CutMix := mkCutMix 0 1 2.
Definition mixup_p0 : MixUP := mkMixUP 0 1 2.

(** [mixup = 0.2], [cutmix = 1.0], ten classes. *)
Definition both_enabled : LoaderArgs := mkLoaderArgs false (1 # 5) 1 10 32 4 true.

Definition dataset_args (kind mode : string) : DatasetArgs :=
  mkDatasetArgs kind (Int 224) mode 4 (8 # 100, 1) (3 # 4, 4 # 3) (1 # 2) None 0
    "bilinear" [1 # 2] [1 # 2] (Int 224) "resize_shorter" (7 # 8) "data" "train" "val".

(** A dataset library that builds anything, with no classes. *)
Definition any_dataset (cls : DatasetClass) (a : CtorArgs) : Exc unit := ret tt.
Definition no_classes (d : unit) : list string := [].

(** ** Shapes and entries *)

(** [len(target)]: the extent of the first axis. *)
Definition target_len (t : Target) : nat :=
  match t with
  | Hard labels => length labels
  | Soft w => length w
  end.

(** An image of [C] channels, [H] rows and [W] columns. *)
Definition image_shape (C H W : nat) (x : image) : Prop :=
  length x = C /\
  Forall (fun p : plane => length p = H /\ Forall (fun row => length row = W) p) x.

(** The nested lists of a batch agree with its [shape]. *)
Definition wf_batch (b : Batch) : Prop :=
  let '(B, C, H, W) := shape b in
  length (data b) = B /\ Forall (image_shape C H W) (data b).

(** [t[n, c, i, j]] *)
Definition pixel (t : list image) (n c i j : nat) : Q :=
  nth j (nth i (nth c (nth n t []) []) []) 0.

(** Every entry of a rank-2 tensor lies in [[0,1]]. *)
Definition weights_in_unit (w : list (list Q)) : Prop :=
  Forall (Forall (fun x => 0 <= x <= 1)) w.

(** ** Kinds of stage *)

Definition is_flip_stage (t : Transform) : bool :=
  match t with
  | RandomHorizontalFlip _ => true
  | _ => false
  end.

Definition is_aug_stage (t : Transform) : bool :=
  match t with
  | RandAugment _ | TrivialAugmentWide _ | AutoAugment _ _ => true
  | _ => false
  end.

(** [size] as the pair that [ValTransform] makes of it. *)
Definition size_pair (size : Size) : Z * Z :=
  match size with
  | Int n => (n, n)
  | Pair h w => (h, w)
  end.

(** * Properties *)

(** ** Scalars *)

Lemma Qgtb_true (a b : Q) : Qgtb a b = true <-> b < a.
Proof.
  unfold Qgtb. rewrite negb_true_iff.
  split; intro H.
  - apply Qnot_le_lt. intro Hle. apply Qle_bool_iff in Hle. congruence.
  - destruct (Qle_bool a b) eqn:E; [| reflexivity].
    apply Qle_bool_iff in E. exfalso. exact (Qlt_not_le _ _ H E).
Qed.

Lemma Qgtb_false (a b : Q) : Qgtb a b = false <-> ~ b < a.
Proof.
  rewrite <- Qgtb_true. destruct (Qgtb a b); split; intro H; congruence.
Qed.

(** [half_extent] is the integer part of [0.5 * sqrt ratio * n]: it is
    the integer [h >= 0] with [h <= 0.5 * sqrt ratio * n < h + 1], written
    with both sides squared. *)
Lemma half_extent_spec (ratio : Q) (n : nat) :
  0 <= ratio ->
  exists h : Z,
    half_extent ratio n = inr h /\ (0 <= h)%Z /\
    inject_Z (h * h) <= ratio * inject_Z (Z.of_nat n) * inject_Z (Z.of_nat n) / 4 /\
    ratio * inject_Z (Z.of_nat n) * inject_Z (Z.of_nat n) / 4
      < inject_Z ((h + 1) * (h + 1)).
Proof.
  intro Hr. unfold half_extent.
  assert (Hg : Qgtb 0 ratio = false) by (apply Qgtb_false; lra).
  rewrite Hg.
  set (q := ratio * inject_Z (Z.of_nat n) * inject_Z (Z.of_nat n) / 4).
  assert (Hq : 0 <= q).
  { unfold q. apply Qle_shift_div_l; [lra|]. rewrite Qmult_0_l.
    rewrite <- Qmult_assoc. apply Qmult_le_0_compat; [exact Hr|].
    rewrite <- inject_Z_mult. change 0 with (inject_Z 0). rewrite <- Zle_Qle. nia. }
  assert (Hf : (0 <= Qfloor q)%Z).
  { change 0%Z with (Qfloor 0). apply Qfloor_resp_le. exact Hq. }
  exists (Z.sqrt (Qfloor q)). split; [reflexivity|].
  pose proof (Z.sqrt_spec (Qfloor q) Hf) as [Hlo Hhi].
  pose proof (Z.sqrt_nonneg (Qfloor q)) as Hs.
  split; [exact Hs|]. split.
  - apply Qle_trans with (inject_Z (Qfloor q)); [| apply Qfloor_le].
    rewrite <- Zle_Qle. exact Hlo.
  - apply Qlt_le_trans with (inject_Z (Qfloor q + 1)); [apply Qlt_floor|].
    rewrite <- Zle_Qle. unfold Z.succ in Hhi. lia.
Qed.

(** ** Lists *)

Section ListFacts.

Context {A B C : Type}.

Lemma map2_length (f : A -> B -> C) (l : list A) (m : list B) :
  length (map2 f l m) = Nat.min (length l) (length m).
Proof.
  revert m. induction l as [|a l IH]; intros [|b m]; simpl; auto.
Qed.

Lemma map2_Forall (f : A -> B -> C) (P : A -> Prop) (Q : B -> Prop) (R : C -> Prop)
    (l : list A) (m : list B) :
  (forall a b, P a -> Q b -> R (f a b)) ->
  Forall P l -> Forall Q m -> Forall R (map2 f l m).
Proof.
  intros Hf Hl. revert m. induction Hl as [|a l Ha Hl IH]; intros m Hm.
  - destruct m; constructor.
  - destruct Hm as [|b m Hb Hm]; simpl; constructor; auto.
Qed.

Lemma map2_nth (f : A -> B -> C) (l : list A) (m : list B) (i : nat)
    (da : A) (db : B) (dc : C) :
  (i < length l)%nat -> (i < length m)%nat ->
  nth i (map2 f l m) dc = f (nth i l da) (nth i m db).
Proof.
  revert m i. induction l as [|a l IH]; intros [|b m] [|i]; simpl; intros; try lia; auto.
  apply IH; lia.
Qed.

Lemma roll_length (shifts : nat) (t : list A) : length (roll shifts t) = length t.
Proof.
  unfold roll. destruct (length t) eqn:E; [exact E|].
  rewrite length_app, length_skipn, length_firstn. rewrite E. lia.
Qed.

Lemma roll_In (shifts : nat) (t : list A) (x : A) : In x (roll shifts t) <-> In x t.
Proof.
  unfold roll. destruct (length t) eqn:E; [tauto|].
  set (k := (S n - shifts mod S n)%nat).
  rewrite in_app_iff. rewrite <- (firstn_skipn k t) at 3.
  rewrite in_app_iff. tauto.
Qed.

Lemma roll_Forall (P : A -> Prop) (shifts : nat) (t : list A) :
  Forall P t -> Forall P (roll shifts t).
Proof.
  rewrite !Forall_forall. intros H x Hx. apply H. apply roll_In in Hx. exact Hx.
Qed.

(** Element [i] of the rolled tensor is element [(i - shifts) mod n]. *)
Lemma roll_nth (shifts : nat) (t : list A) (i : nat) (d : A) :
  (i < length t)%nat ->
  nth i (roll shifts t) d
  = nth ((i + (length t - shifts mod length t)) mod length t) t d.
Proof.
  intro Hi. unfold roll. destruct (length t) as [|n] eqn:E; [lia|].
  assert (Hm : (shifts mod S n < S n)%nat) by (apply Nat.mod_upper_bound; lia).
  set (k := (S n - shifts mod S n)%nat) in *.
  assert (Hk : (1 <= k <= S n)%nat) by (unfold k; lia).
  destruct (Nat.lt_ge_cases i (S n - k)) as [Hlt | Hge].
  - rewrite app_nth1 by (rewrite length_skipn; lia).
    rewrite nth_skipn. rewrite Nat.mod_small by lia. f_equal. lia.
  - rewrite app_nth2 by (rewrite length_skipn; lia).
    rewrite length_skipn, E. rewrite nth_firstn.
    assert (Hlt : (i - (S n - k) <? k)%nat = true) by (apply Nat.ltb_lt; lia).
    rewrite Hlt. f_equal.
    replace (i + k)%nat with ((i - (S n - k)) + 1 * S n)%nat by lia.
    rewrite Nat.Div0.mod_add. rewrite Nat.mod_small by lia. reflexivity.
Qed.


End ListFacts.

(** ** Row sums *)

Lemma rsum_lerp1 (ratio : Q) (x y : list Q) :
  length x = length y ->
  rsum (lerp1 ratio x y) == rsum x * (1 - ratio) + rsum y * ratio.
Proof.
  revert y. induction x as [|a x IH]; intros [|b y] Hlen; simpl in *; try discriminate.
  - ring.
  - injection Hlen as Hlen. unfold lerp1 in IH. rewrite (IH y Hlen). unfold lerp. ring.
Qed.

Lemma one_hot_row_sum_from (c : Z) (k a : nat) :
  rsum (map (fun j => if (Z.of_nat j =? c)%Z then 1 else 0) (seq a k))
  == if ((Z.of_nat a <=? c) && (c <? Z.of_nat (a + k)))%Z then 1 else 0.
Proof.
  revert a. induction k as [|k IH]; intro a; simpl.
  - destruct (Z.leb_spec (Z.of_nat a) c), (Z.ltb_spec c (Z.of_nat (a + 0)));
      simpl; try reflexivity; lia.
  - rewrite (IH (S a)).
    destruct (Z.eqb_spec (Z.of_nat a) c) as [E | E];
      destruct (Z.leb_spec (Z.of_nat (S a)) c), (Z.ltb_spec c (Z.of_nat (S a + k)));
      destruct (Z.leb_spec (Z.of_nat a) c), (Z.ltb_spec c (Z.of_nat (a + S k)));
      simpl; try reflexivity; lia.
Qed.

Lemma one_hot_row_sum (k : nat) (c : Z) :
  (0 <= c < Z.of_nat k)%Z -> rsum (one_hot_row k c) == 1.
Proof.
  intro Hc. unfold one_hot_row. rewrite one_hot_row_sum_from.
  destruct (Z.leb_spec (Z.of_nat 0) c), (Z.ltb_spec c (Z.of_nat (0 + k)));
    simpl in *; try reflexivity; lia.
Qed.

Lemma one_hot_row_length (k : nat) (c : Z) : length (one_hot_row k c) = k.
Proof. unfold one_hot_row. rewrite length_map, length_seq. reflexivity. Qed.

Lemma list_max_ge (l : list Z) (c : Z) : In c l -> (c <= list_max l)%Z.
Proof.
  induction l as [|a l IH]; simpl; [tauto|].
  intros [-> | H]; [lia|]. specialize (IH H). lia.
Qed.

Lemma one_hot_rows (k : nat) (labels : list Z) :
  Forall (fun c => (0 <= c < Z.of_nat k)%Z) labels ->
  rectangular (map (one_hot_row k) labels) /\
  rows_sum_to_1 (map (one_hot_row k) labels).
Proof.
  intro H. split.
  - exists k. apply Forall_map. apply Forall_forall. intros c _.
    apply one_hot_row_length.
  - unfold rows_sum_to_1. apply Forall_map.
    eapply Forall_impl; [| exact H]. intros c Hc. apply one_hot_row_sum. exact Hc.
Qed.

(** Whatever [one_hot] returns has rows of one length that sum to 1. *)
Lemma one_hot_mass (labels : list Z) (num_classes : Z) (w : list (list Q)) :
  one_hot labels num_classes = inr w -> rectangular w /\ rows_sum_to_1 w.
Proof.
  unfold one_hot. destruct labels as [|c0 l].
  - destruct (num_classes <=? 0)%Z; [discriminate|].
    intro E. injection E as <-. split; [exists 0%nat|]; constructor.
  - set (labels := c0 :: l).
    destruct (existsb (fun c => (c <? 0)%Z) labels) eqn:Eneg; [discriminate|].
    assert (Hpos : forall c, In c labels -> (0 <= c)%Z).
    { intros c Hc. destruct (Z.ltb_spec c 0) as [Hlt|]; [| assumption].
      assert (existsb (fun c => (c <? 0)%Z) labels = true).
      { apply existsb_exists. exists c. split; [exact Hc | apply Z.ltb_lt; exact Hlt]. }
      congruence. }
    destruct (num_classes =? -1)%Z.
    + intro E. injection E as <-. apply (one_hot_rows _ labels).
      apply Forall_forall. intros c Hc.
      pose proof (Hpos c Hc). pose proof (list_max_ge labels c Hc).
      unfold labels in *. simpl list_max in *. lia.
    + destruct (Z.leb_spec num_classes (list_max labels)); [discriminate|].
      intro E. injection E as <-. apply (one_hot_rows _ labels).
      apply Forall_forall. intros c Hc.
      pose proof (Hpos c Hc). pose proof (list_max_ge labels c Hc).
      unfold labels in *. simpl list_max in *. lia.
Qed.

Lemma promote_mass (target : Target) (nclass : Z) (t : list (list Q)) :
  mass_ok target -> promote target nclass = inr t ->
  rectangular t /\ rows_sum_to_1 t.
Proof.
  destruct target as [labels | w]; simpl.
  - intros _. apply one_hot_mass.
  - intros H E. injection E as <-. exact H.
Qed.

(** A blend of a tensor with its own shift keeps rows of one length that
    sum to 1, whatever the ratio. *)
Lemma lerp2_roll_mass (ratio : Q) (t : list (list Q)) :
  rectangular t -> rows_sum_to_1 t ->
  rectangular (lerp2 ratio t (roll 1 t)) /\ rows_sum_to_1 (lerp2 ratio t (roll 1 t)).
Proof.
  intros [k Hk] Hs.
  assert (H : Forall (fun row => length row = k /\ rsum row == 1) t).
  { apply Forall_forall. intros row Hin. split.
    - exact (proj1 (Forall_forall _ _) Hk row Hin).
    - exact (proj1 (Forall_forall _ _) Hs row Hin). }
  assert (H' : Forall (fun row => length row = k /\ rsum row == 1)
                      (lerp2 ratio t (roll 1 t))).
  { unfold lerp2. eapply map2_Forall; [| exact H | apply roll_Forall; exact H].
    intros a b [La Sa] [Lb Sb]. split.
    - unfold lerp1. rewrite map2_length, La, Lb. apply Nat.min_id.
    - rewrite rsum_lerp1 by congruence. rewrite Sa, Sb. ring. }
  split.
  - exists k. eapply Forall_impl; [| exact H']. intros a [Ha _]. exact Ha.
  - eapply Forall_impl; [| exact H']. intros a [_ Ha]. exact Ha.
Qed.

(** ** The mixing steps: when they return, and what *)

Lemma MixUP_mix_returns (self : MixUP) (g : Rng) (batch : Batch) (target : Target)
    (t : list (list Q)) :
  promote target (mixup_nclass self) = inr t ->
  MixUP_mix self g batch target
  = inr (mkBatch (shape batch)
           (lerp4 (1 - dirichlet0 g (mixup_alpha self)) (data batch) (roll 1 (data batch))),
         Soft (lerp2 (1 - dirichlet0 g (mixup_alpha self)) t (roll 1 t))).
Proof. intro E. unfold MixUP_mix. rewrite E. reflexivity. Qed.

Lemma MixUP_mix_inv (self : MixUP) (g : Rng) (batch : Batch) (target : Target)
    (out : Batch * Target) :
  MixUP_mix self g batch target = inr out ->
  exists t, promote target (mixup_nclass self) = inr t /\
    out = (mkBatch (shape batch)
             (lerp4 (1 - dirichlet0 g (mixup_alpha self)) (data batch)
                    (roll 1 (data batch))),
           Soft (lerp2 (1 - dirichlet0 g (mixup_alpha self)) t (roll 1 t))).
Proof.
  unfold MixUP_mix. destruct (promote target (mixup_nclass self)) as [e | t]; simpl.
  - discriminate.
  - intro E. injection E as <-. exists t. split; reflexivity.
Qed.

Lemma swap_box_returns (ratio : Q) (H W : nat) (g : Rng) :
  0 <= ratio -> exists box, swap_box ratio H W g = inr box.
Proof.
  intro Hr. unfold swap_box.
  destruct (half_extent_spec ratio H Hr) as [hh [-> _]].
  destruct (half_extent_spec ratio W Hr) as [wh [-> _]].
  simpl. eexists. reflexivity.
Qed.

Lemma box_ratio_returns (box : Z * Z * Z * Z) (H W : nat) :
  (0 < H)%nat -> (0 < W)%nat ->
  let '(x0, x1, y0, y1) := box in
  box_ratio box H W
  = inr (1 - inject_Z ((x1 - x0) * (y1 - y0)) / inject_Z (Z.of_nat H * Z.of_nat W)).
Proof.
  intros HH HW. destruct box as [[[x0 x1] y0] y1]. unfold box_ratio, py_truediv.
  destruct (Z.eqb_spec (Z.of_nat H * Z.of_nat W) 0) as [E | E]; [nia|].
  reflexivity.
Qed.

Lemma CutMix_mix_inv (self : CutMix) (g : Rng) (batch : Batch) (target : Target)
    (out : Batch * Target) :
  CutMix_mix self g batch target = inr out ->
  exists t r, promote target (cutmix_nclass self) = inr t /\
    snd out = Soft (lerp2 r t (roll 1 t)).
Proof.
  unfold CutMix_mix. destruct (promote target (cutmix_nclass self)) as [e | t]; simpl.
  - discriminate.
  - destruct (shape batch) as [[[B C] H] W].
    destruct (swap_box _ H W g) as [e | [[[x0 x1] y0] y1]]; simpl; [discriminate|].
    destruct (py_truediv _ _) as [e | q]; simpl; [discriminate|].
    intro E. injection E as <-. exists t. eexists. split; reflexivity.
Qed.

(** With a target that promotes, a ratio that has a square root and an
    image with pixels, nothing is raised: the mixing steps of [CutMix]
    return the pasted batch and the blend of the target with its shift. *)
Lemma CutMix_mix_returns (self : CutMix) (g : Rng) (batch : Batch) (target : Target)
    (t : list (list Q)) (B C H W : nat) :
  promote target (cutmix_nclass self) = inr t ->
  shape batch = (B, C, H, W) ->
  0 <= 1 - dirichlet0 g (cutmix_alpha self) ->
  (0 < H)%nat -> (0 < W)%nat ->
  exists x0 x1 y0 y1,
    swap_box (1 - dirichlet0 g (cutmix_alpha self)) H W g = inr (x0, x1, y0, y1) /\
    CutMix_mix self g batch target
    = inr (mkBatch (shape batch) (paste x0 x1 y0 y1 (data batch) (roll 1 (data batch))),
           Soft (lerp2 (1 - inject_Z ((x1 - x0) * (y1 - y0))
                              / inject_Z (Z.of_nat H * Z.of_nat W))
                       t (roll 1 t))).
Proof.
  intros Ep Es Hr HH HW.
  destruct (swap_box_returns _ H W g Hr) as [[[[x0 x1] y0] y1] Eb].
  exists x0, x1, y0, y1. split; [exact Eb|].
  unfold CutMix_mix. rewrite Ep. simpl. rewrite Es, Eb. simpl.
  pose proof (box_ratio_returns (x0, x1, y0, y1) H W HH HW) as Er. simpl in Er.
  rewrite Er. reflexivity.
Qed.

Lemma op_call_skip (op : MixOp) (g : Rng) (batch : Batch) (target : Target) :
  rand_skip g < op_p op -> op_call op g batch target = inr (batch, target).
Proof.
  intro H. apply Qgtb_true in H.
  destruct op; simpl in *; [unfold MixUP_call | unfold CutMix_call]; rewrite H; reflexivity.
Qed.

Lemma op_call_mix (op : MixOp) (g : Rng) (batch : Batch) (target : Target) :
  ~ rand_skip g < op_p op -> op_call op g batch target = op_mix op g batch target.
Proof.
  intro H. apply Qgtb_false in H.
  destruct op; simpl in *; [unfold MixUP_call | unfold CutMix_call]; rewrite H; reflexivity.
Qed.

Lemma op_mix_inv (op : MixOp) (g : Rng) (batch : Batch) (target : Target)
    (out : Batch * Target) :
  op_mix op g batch target = inr out ->
  exists t r, promote target (op_nclass op) = inr t /\
    snd out = Soft (lerp2 r t (roll 1 t)).
Proof.
  destruct op as [m | c]; simpl.
  - intro E. apply MixUP_mix_inv in E. destruct E as [t [Ep ->]].
    exists t. eexists. split; [exact Ep | reflexivity].
  - apply CutMix_mix_inv.
Qed.

Lemma op_mix_returns (op : MixOp) (g : Rng) (batch : Batch) (target : Target) :
  mix_ready op g batch target -> exists out, op_mix op g batch target = inr out.
Proof.
  intros [[t Ep] Hop]. destruct op as [m | c]; simpl in *.
  - eexists. apply MixUP_mix_returns. exact Ep.
  - destruct (shape batch) as [[[B C] H] W] eqn:Es. destruct Hop as [Hr [HH HW]].
    destruct (CutMix_mix_returns c g batch target t B C H W Ep Es Hr HH HW)
      as [x0 [x1 [y0 [y1 [_ E]]]]].
    eexists. exact E.
Qed.

(** [mix_ready] is exactly when the mixing steps return. *)
Lemma op_mix_returns_iff (op : MixOp) (g : Rng) (batch : Batch) (target : Target) :
  (exists out, op_mix op g batch target = inr out) <-> mix_ready op g batch target.
Proof.
  split; [| apply op_mix_returns].
  intros [out E]. unfold mix_ready.
  destruct op as [m | c]; simpl in *.
  - apply MixUP_mix_inv in E. destruct E as [t [Ep _]]. split; [exists t; exact Ep | exact I].
  - unfold CutMix_mix in E.
    destruct (promote target (cutmix_nclass c)) as [e | t]; simpl in E; [discriminate|].
    split; [exists t; reflexivity|].
    destruct (shape batch) as [[[B C] H] W]. unfold op_ratio. simpl.
    unfold swap_box, half_extent in E.
    destruct (Qgtb 0 (1 - dirichlet0 g (cutmix_alpha c))) eqn:Eg; simpl in E;
      [discriminate|].
    apply Qgtb_false in Eg. split; [apply Qnot_lt_le; exact Eg|].
    unfold py_truediv in E.
    destruct (Z.eqb_spec (Z.of_nat H * Z.of_nat W) 0) as [Ez | Ez]; simpl in E;
      [discriminate | nia].
Qed.

(** ** Label mass *)

(** C1. For either mixing operator, on a call that is not skipped and whose
    input target is hard or is soft with every row summing to 1: every
    result the call returns has a soft target whose rows all sum to 1 (for
    any drawn ratio, so in particular for ratios in [0,1]), and the call
    does return on every input on which the mixing steps raise nothing. *)
Theorem label_mass_invariant (op : MixOp) (g : Rng) (batch : Batch) (target : Target) :
  mass_ok target ->
  ~ rand_skip g < op_p op ->
  (forall out, op_call op g batch target = inr out ->
     exists w, snd out = Soft w /\ rectangular w /\ rows_sum_to_1 w) /\
  (mix_ready op g batch target -> exists out, op_call op g batch target = inr out).
Proof.
  intros Hm Hs. rewrite (op_call_mix op g batch target Hs). split.
  - intros out E. apply op_mix_inv in E. destruct E as [t [r [Ep Eo]]].
    destruct (promote_mass target _ t Hm Ep) as [Hrect Hsum].
    exists (lerp2 r t (roll 1 t)). split; [exact Eo|].
    apply lerp2_roll_mass; assumption.
  - apply op_mix_returns.
Qed.

(** A run of [label_mass_invariant]: [CutMix] on two labelled images. *)
Lemma label_mass_invariant_witness :
  exists w,
    op_call (OpCutMix cutmix_p0) corner_draws two_images two_labels
    = inr (two_images, Soft w) /\ rows_sum_to_1 w.
Proof.
  assert (Hm : mass_ok two_labels) by exact I.
  assert (Hs : ~ rand_skip corner_draws < op_p (OpCutMix cutmix_p0))
    by (intro H; vm_compute in H; discriminate H).
  destruct (label_mass_invariant (OpCutMix cutmix_p0) corner_draws two_images
              two_labels Hm Hs) as [Hall _].
  destruct (Hall _ eq_refl) as [w [E [_ Hw]]].
  exists w. simpl in E. rewrite <- E. split; [reflexivity | exact Hw].
Defined.

(** ** CutMix area consistency *)

Lemma roll1_index (n i : nat) :
  (i < n)%nat -> ((i + (n - 1 mod n)) mod n = (i + n - 1) mod n)%nat.
Proof.
  intro Hi. destruct n as [|[|n]]; [lia | |].
  - rewrite !Nat.mod_1_r. reflexivity.
  - rewrite (Nat.mod_small 1) by lia. f_equal. lia.
Qed.

(** C3. Two 16x2 images labelled 0 and 1, [CutMix] with its default
    [p = 0.5], skip draw 0.75, nominal ratio 0.0625 (half extents 2 and 0),
    row draw 0.75 (row 12).  The row bounds are 10 and 14; the column
    bounds, taken from the row, are 12 and 2.  No entry is pasted (the
    batch comes back as given), so the swapped region has area 0, yet the
    ratio used for the labels is [1 - (4 * (-10)) / 32 = 2.25] and the
    returned target has the weights -1.25 and 2.25. *)
Theorem cutmix_ratio_of_inverted_columns :
  swap_box (1 # 16) 16 2 tall_draws = inr (10, 14, 12, 2)%Z /\
  (exists r, box_ratio (10, 14, 12, 2)%Z 16 2 = inr r /\ r == 9 # 4) /\
  exists w,
    CutMix_call cutmix_default tall_draws two_tall_images two_labels
    = inr (two_tall_images, Soft w) /\
    teq2 w [[- (5 # 4); 9 # 4]; [9 # 4; - (5 # 4)]].
Proof.
  split; [reflexivity|].
  split; [eexists; split; reflexivity|].
  eexists. split; [vm_compute; reflexivity|].
  repeat constructor.
Qed.

(** ** The skip test *)

(** C8. Each operator returns its input when [p > u] and runs its mixing
    steps otherwise; a hard target comes back hard exactly when [p > u];
    with [p = 1] every draw [u] of [[0,1)] skips, with [p = 0] every draw
    runs the mixing steps. *)
Theorem skip_probability_rule (op : MixOp) (g : Rng) (batch : Batch) (target : Target) :
  (rand_skip g < op_p op -> op_call op g batch target = inr (batch, target)) /\
  (~ rand_skip g < op_p op ->
     op_call op g batch target = op_mix op g batch target) /\
  (forall labels,
     op_call op g batch (Hard labels) = inr (batch, Hard labels)
     <-> rand_skip g < op_p op) /\
  (op_p op == 1 -> 0 <= rand_skip g < 1 ->
     op_call op g batch target = inr (batch, target)) /\
  (op_p op == 0 -> 0 <= rand_skip g < 1 ->
     op_call op g batch target = op_mix op g batch target).
Proof.
  split; [apply op_call_skip|]. split; [apply op_call_mix|]. split; [| split].
  - intro labels. split; [| apply op_call_skip].
    intro E. destruct (Qlt_le_dec (rand_skip g) (op_p op)) as [Hlt | Hge]; [exact Hlt|].
    exfalso. rewrite op_call_mix in E by (apply Qle_not_lt; exact Hge).
    apply op_mix_inv in E. destruct E as [t [r [_ E]]]. simpl in E. discriminate.
  - intros Hp [_ Hu]. apply op_call_skip. rewrite Hp. exact Hu.
  - intros Hp [Hu _]. apply op_call_mix. rewrite Hp. apply Qle_not_lt. exact Hu.
Qed.

(** A run of [skip_probability_rule]: [p = 1] and a draw of 0.25. *)
Lemma skip_probability_rule_witness :
  op_call (OpMixUP (mkMixUP 1 1 2)) early_draws two_images two_labels
  = inr (two_images, two_labels).
Proof.
  destruct (skip_probability_rule (OpMixUP (mkMixUP 1 1 2)) early_draws
              two_images two_labels) as [_ [_ [_ [Hone _]]]].
  apply Hone.
  - reflexivity.
  - split; [intro H | ]; vm_compute; [discriminate H | reflexivity].
Defined.

(** ** A batch of one sample *)

Lemma lerp_self (ratio a : Q) : lerp ratio a a == a.
Proof. unfold lerp. ring. Qed.





(** ** Operators assembled by [get_dataloader] *)

Lemma mix_collate_In (args : LoaderArgs) (op : MixOp) :
  In op (mix_collate args) ->
  op = OpMixUP (mkMixUP (1 # 2) (mixup args) (num_classes args)) \/
  op = OpCutMix (mkCutMix (1 # 2) (mixup args) (num_classes args)).
Proof.
  unfold mix_collate. intro H. apply in_app_iff in H.
  destruct H as [H | H]; [destruct (truthy (mixup args)) | destruct (truthy (cutmix args))];
    simpl in H; try tauto; destruct H as [<- | []]; [left | right]; reflexivity.
Qed.

Lemma RandomChoice_pick_In (ops : list MixOp) (g : Rng) :
  ops <> [] -> 0 <= rand_choice g < 1 ->
  exists op, RandomChoice_pick ops g = Some op /\ In op ops.
Proof.
  intros Hne [Hlo Hhi]. unfold RandomChoice_pick.
  set (n := Z.of_nat (length ops)).
  assert (Hn : (0 < n)%Z) by (unfold n; destruct ops; [congruence | simpl; lia]).
  assert (HnQ : 0 < inject_Z n) by (change 0 with (inject_Z 0); rewrite <- Zlt_Qlt; exact Hn).
  set (q := rand_choice g * inject_Z n).
  assert (Hq0 : 0 <= q) by (unfold q; apply Qmult_le_0_compat; lra).
  assert (Hq1 : q < inject_Z n).
  { unfold q. rewrite <- (Qmult_1_l (inject_Z n)) at 2.
    apply Qmult_lt_compat_r; assumption. }
  assert (Hf0 : (0 <= Qfloor q)%Z).
  { change 0%Z with (Qfloor 0). apply Qfloor_resp_le. exact Hq0. }
  assert (Hf1 : (Qfloor q < n)%Z).
  { rewrite Zlt_Qlt. eapply Qle_lt_trans; [apply Qfloor_le | exact Hq1]. }
  destruct (nth_error ops (Z.to_nat (Qfloor q))) as [op|] eqn:E.
  - exists op. split; [reflexivity|]. eapply nth_error_In. exact E.
  - apply nth_error_None in E. unfold n in Hf1. lia.
Qed.

(** C10. Every operator that [get_dataloader] puts in [mix_collate] is
    built without [p] and so carries [p = 0.5]; the collate function then
    returns the batch and target unchanged whenever the skip draw of the
    selected operator is below 0.5. *)
Theorem assembled_ops_skip_half (args : LoaderArgs) :
  (forall op, In op (mix_collate args) -> op_p op = 1 # 2) /\
  (forall f g batch target,
     collate_fn args = Some f ->
     0 <= rand_choice g < 1 ->
     rand_skip g < 1 # 2 ->
     f g batch target = inr (batch, target)).
Proof.
  assert (Hp : forall op, In op (mix_collate args) -> op_p op = 1 # 2).
  { intros op H. apply mix_collate_In in H. destruct H as [-> | ->]; reflexivity. }
  split; [exact Hp|].
  intros f g batch target Ef Hc Hs. unfold collate_fn in Ef.
  destruct (mix_collate args) as [|op0 ops] eqn:E; [discriminate|].
  injection Ef as <-. unfold RandomChoice_call.
  destruct (RandomChoice_pick_In (op0 :: ops) g) as [op [-> Hin]];
    [discriminate | exact Hc |].
  apply op_call_skip. rewrite (Hp op Hin). exact Hs.
Qed.

(** A run of [assembled_ops_skip_half]: both operators enabled, skip
    draw 0.25. *)
Lemma assembled_ops_skip_half_witness :
  collate_fn both_enabled = Some (RandomChoice_call (mix_collate both_enabled)) /\
  RandomChoice_call (mix_collate both_enabled) early_draws two_images two_labels
  = inr (two_images, two_labels).
Proof.
  split; [reflexivity|].
  destruct (assembled_ops_skip_half both_enabled) as [_ Hskip].
  apply Hskip.
  - reflexivity.
  - split; [intro H | ]; vm_compute; [discriminate H | reflexivity].
  - vm_compute. reflexivity.
Defined.

(** ** A box of no area *)

(** Whenever the box has no area, the recomputed ratio is 1, not 0. *)
Lemma box_ratio_zero_area (x0 x1 y0 y1 : Z) (H W : nat) :
  (0 < H)%nat -> (0 < W)%nat -> ((x1 - x0) * (y1 - y0) = 0)%Z ->
  exists r, box_ratio (x0, x1, y0, y1) H W = inr r /\ r == 1.
Proof.
  intros HH HW Ha.
  pose proof (box_ratio_returns (x0, x1, y0, y1) H W HH HW) as E. simpl in E.
  eexists. split; [exact E|]. rewrite Ha. unfold Qdiv. rewrite Qmult_0_l. ring.
Qed.

(** C2. Two images labelled 0 and 1, nominal ratio 0.01, box centre at
    the corner: the box is empty and nothing is raised, the images come
    back as they were, but the recomputed ratio is 1 and the returned
    target is the target of the other sample: rows [0,1] and [1,0] where
    the input rows were [1,0] and [0,1]. *)
Theorem cutmix_empty_box_swaps_labels :
  swap_box (1 # 100) 2 2 corner_draws = inr (0, 0, 0, 0)%Z /\
  (exists r, box_ratio (0, 0, 0, 0)%Z 2 2 = inr r /\ r == 1) /\
  promote two_labels 2 = inr [[1; 0]; [0; 1]] /\
  exists w,
    CutMix_call cutmix_p0 corner_draws two_images two_labels
    = inr (two_images, Soft w) /\
    teq2 w [[0; 1]; [1; 0]].
Proof.
  split; [reflexivity|].
  split; [eexists; split; reflexivity|].
  split; [reflexivity|].
  eexists. split; [reflexivity|].
  repeat constructor.
Qed.

(** ** The box and the column draw *)

(** The box never reads the column draw. *)
Lemma swap_box_ignores_column_draw (ratio : Q) (H W : nat)
    (choice skip : Q) (dir : Q -> Q) (r c c' : Q) :
  swap_box ratio H W (mkRng choice skip dir r c)
  = swap_box ratio H W (mkRng choice skip dir r c').
Proof. reflexivity. Qed.

(** When the recomputed ratio leaves [0,1]: a 10x2 image, nominal ratio
    0.04, row draw 0.9.  The column bounds follow the row 9: they are 9
    and 2, the box width is -7 and the ratio is 1.7. *)
Example box_ratio_above_one :
  swap_box (1 # 25) 10 2 (mkRng 0 (1 # 2) (fun _ => 24 # 25) (9 # 10) 0)
  = inr (8, 10, 9, 2)%Z /\
  exists r, box_ratio (8, 10, 9, 2)%Z 10 2 = inr r /\ r == 17 # 10.
Proof. split; [reflexivity|]. eexists. split; reflexivity. Qed.

(** C4. On an 8x8 image with half extents 2, row draw 0 and column draw
    0.5 (row 0, column 4), the box is rows 0..2 and columns 0..2: the
    columns are those of the row coordinate, not 4-2..4+2; and changing
    the column draw alone never changes the box. *)
Theorem cutmix_columns_follow_row_draw :
  half_extent (1 # 4) 8 = inr 2%Z /\
  py_int (rand_r row0_col_half * inject_Z 8) = 0%Z /\
  py_int (rand_c row0_col_half * inject_Z 8) = 4%Z /\
  swap_box (1 # 4) 8 8 row0_col_half = inr (0, 2, 0, 2)%Z /\
  forall c' : Q,
    swap_box (1 # 4) 8 8 (mkRng 0 (1 # 2) (fun _ => 3 # 4) 0 c') = inr (0, 2, 0, 2)%Z.
Proof.
  repeat split; reflexivity.
Qed.

(** ** The alpha given to CutMix *)

Lemma mix_collate_cutmix_alpha (args : LoaderArgs) (c : CutMix) :
  In (OpCutMix c) (mix_collate args) -> cutmix_alpha c = mixup args.
Proof.
  intro H. apply mix_collate_In in H. destruct H as [H | H]; [discriminate|].
  injection H as ->. reflexivity.
Qed.

(** C5. With [mixup = 0.2] and [cutmix = 1.0] both operators are built,
    and the [CutMix] operator carries alpha 0.2, the mixup value, not the
    configured cutmix value 1.0. *)
Theorem cutmix_built_with_mixup_alpha :
  cutmix both_enabled = 1 /\
  mix_collate both_enabled
  = [OpMixUP (mkMixUP (1 # 2) (1 # 5) 10); OpCutMix (mkCutMix (1 # 2) (1 # 5) 10)].
Proof. split; reflexivity. Qed.

(** ** An unknown resize mode *)

Lemma erasing_in_range (remode : Q) :
  0 <= remode <= 1 -> Qgtb 0 remode || Qgtb remode 1 = false.
Proof.
  intros [H0 H1]. apply orb_false_iff. split; apply Qgtb_false; lra.
Qed.

(** The [assert] on the message string never fails: whatever the resize
    mode, [TrainTransform] returns once the interpolation names a mode and
    the erasing probability lies in [[0,1]]. *)
Lemma TrainTransform_accepts_any_mode (resize : Size) (resize_mode : string) (pad : Z)
    (scale ratio : Q * Q) (hflip : Q) (auto_aug : option string) (remode : Q)
    (interpolation : string) (mean std : list Q) (im : InterpolationMode) :
  InterpolationMode_of interpolation = inr im ->
  0 <= remode <= 1 ->
  exists l, TrainTransform resize resize_mode pad scale ratio hflip auto_aug remode
              interpolation mean std = inr l.
Proof.
  intros E Hr. pose proof (erasing_in_range remode Hr) as G.
  unfold TrainTransform. rewrite E. cbn [bind ret raise].
  destruct (String.eqb resize_mode "RandomResizedCrop");
    [| destruct (String.eqb resize_mode "ResizeRandomCrop");
       [| destruct resize_mode; cbn [String.append String.length Nat.eqb]]];
    cbn [bind ret raise]; rewrite G; destruct (truthy remode);
    cbn [bind ret raise]; eexists; reflexivity.
Qed.

(** With a mode that is neither of the two, the list built has no resize
    stage at all. *)
Lemma TrainTransform_unknown_mode_no_resize (resize : Size) (resize_mode : string)
    (pad : Z) (scale ratio : Q * Q) (hflip : Q) (auto_aug : option string) (remode : Q)
    (interpolation : string) (mean std : list Q) (l : list Transform) :
  String.eqb resize_mode "RandomResizedCrop" = false ->
  String.eqb resize_mode "ResizeRandomCrop" = false ->
  TrainTransform resize resize_mode pad scale ratio hflip auto_aug remode
    interpolation mean std = inr l ->
  existsb is_resize_stage l = false.
Proof.
  intros E1 E2. unfold TrainTransform.
  destruct (InterpolationMode_of interpolation) as [e | im]; cbn [bind ret raise];
    [discriminate|].
  rewrite E1, E2.
  destruct resize_mode; cbn [String.append String.length Nat.eqb bind ret raise];
    destruct (Qgtb 0 remode || Qgtb remode 1);
    destruct (truthy hflip), (str_truthy auto_aug) as [aug|], (truthy remode);
    cbn [bind ret raise];
    try (destruct (String.prefix "ra" aug), (String.prefix "ta_wide" aug),
           (String.prefix "aa" aug));
    intro E; try discriminate E; injection E as <-; reflexivity.
Qed.

(** C6. With [train_resize_mode = "Unknown"] the transform is built and
    nothing is raised: the list has no resize stage, and [get_dataset]
    goes on to build both datasets. *)
Theorem unknown_resize_mode_is_accepted :
  TrainTransform (Int 224) "Unknown" 4 (8 # 100, 1) (3 # 4, 4 # 3) (1 # 2) None 0
    "bilinear" [1 # 2] [1 # 2]
  = inr [RandomHorizontalFlip (1 # 2); ToTensor; Normalize [1 # 2] [1 # 2]] /\
  get_dataset unit any_dataset no_classes String.append
    (dataset_args "CIFAR10" "Unknown") []
  = ([BuiltTrainTransform; BuiltValTransform;
      CalledDataset CIFAR10
        (Keywords "data" true true
           [RandomHorizontalFlip (1 # 2); ToTensor; Normalize [1 # 2] [1 # 2]]);
      CalledDataset CIFAR10
        (Keywords "data" false true
           [Resize (Int 256) BILINEAR; CenterCrop (Pair 224 224); ToTensor;
            Normalize [1 # 2] [1 # 2]])],
     inr (tt, tt, 0%Z)).
Proof. split; reflexivity. Qed.

(** ** An unknown dataset type *)

Lemma dict_getitem_missing {V : Type} (d : list (string * V)) (key : string) :
  str_in key (dict_keys d) = false -> dict_getitem d key = inl (KeyError key).
Proof.
  unfold str_in, dict_keys. induction d as [|[k v] d IH]; simpl; [reflexivity|].
  intro H. apply orb_false_iff in H. destruct H as [Hk Hd].
  rewrite Hk. apply IH. exact Hd.
Qed.

Lemma dict_getitem_present {V : Type} (d : list (string * V)) (key : string) :
  str_in key (dict_keys d) = true -> exists v, dict_getitem d key = inr v.
Proof.
  unfold str_in, dict_keys. induction d as [|[k v] d IH]; simpl; [discriminate|].
  intro H. destruct (String.eqb key k); [exists v; reflexivity|].
  apply IH. exact H.
Qed.

Lemma prefix_append (s t : string) : String.prefix s (String.append s t) = true.
Proof.
  induction s as [|a s IH]; simpl; [destruct t; reflexivity|].
  destruct (ascii_dec a a) as [_ | Hne]; [exact IH | congruence].
Qed.

Lemma index_append (s t : string) :
  exists n, String.index 0 s (String.append s t) = Some n.
Proof.
  destruct (String.append s t) as [|b u] eqn:E.
  - destruct s; [exists 0%nat; reflexivity | discriminate].
  - assert (Hi : String.index 0 s (String b u)
                 = if String.prefix s (String b u) then Some 0%nat
                   else match String.index 0 s u with
                        | Some n => Some (S n)
                        | None => None
                        end) by reflexivity.
    rewrite Hi, <- E, prefix_append. exists 0%nat. reflexivity.
Qed.

Lemma plain_char_codes (a : ascii) :
  plain_char a = true ->
  (32 <= nat_of_ascii a <= 126 /\ nat_of_ascii a <> 39 /\ nat_of_ascii a <> 92)%nat.
Proof.
  unfold plain_char. intro H.
  apply andb_true_iff in H. destruct H as [H H92].
  apply andb_true_iff in H. destruct H as [H H39].
  apply andb_true_iff in H. destruct H as [H32 H126].
  apply Nat.leb_le in H32. apply Nat.leb_le in H126.
  apply negb_true_iff, Nat.eqb_neq in H39. apply negb_true_iff, Nat.eqb_neq in H92.
  lia.
Qed.

Lemma repr_char_plain (a : ascii) :
  plain_char a = true -> repr_char 39 a = String a EmptyString.
Proof.
  intro H. apply plain_char_codes in H. destruct H as [[H32 H126] [H39 H92]].
  unfold repr_char, printable_code.
  destruct (Nat.eqb_spec (nat_of_ascii a) 39); [contradiction|].
  destruct (Nat.eqb_spec (nat_of_ascii a) 92); [contradiction|].
  destruct (Nat.eqb_spec (nat_of_ascii a) 9); [lia|].
  destruct (Nat.eqb_spec (nat_of_ascii a) 10); [lia|].
  destruct (Nat.eqb_spec (nat_of_ascii a) 13); [lia|].
  destruct (Nat.leb_spec 32 (nat_of_ascii a)); [| lia].
  destruct (Nat.ltb_spec (nat_of_ascii a) 127); [| lia].
  reflexivity.
Qed.

Lemma repr_body_plain (s : string) : plain s = true -> repr_body 39 s = s.
Proof.
  unfold plain. induction s as [|a s IH]; simpl; [reflexivity|].
  intro H. apply andb_true_iff in H. destruct H as [Ha Hs].
  rewrite (repr_char_plain a Ha), (IH Hs). reflexivity.
Qed.

Lemma plain_no_quote (s : string) : plain s = true -> has_code 39 s = false.
Proof.
  unfold plain, has_code. induction s as [|a s IH]; simpl; [reflexivity|].
  intro H. apply andb_true_iff in H. destruct H as [Ha Hs].
  apply plain_char_codes in Ha. destruct Ha as [_ [H39 _]].
  rewrite (IH Hs). destruct (Nat.eqb_spec (nat_of_ascii a) 39); [contradiction | reflexivity].
Qed.

(** The [repr] of a plain string is the string between single quotes. *)
Lemma py_repr_plain (s : string) :
  plain s = true -> py_repr s = String "'"%char (String.append s "'").
Proof.
  intro H. unfold py_repr. rewrite (plain_no_quote s H). simpl andb. cbv iota.
  rewrite (repr_body_plain s H). reflexivity.
Qed.

(** The message of a [KeyError] whose key is plain holds the key. *)
Lemma KeyError_names_key (key : string) :
  plain key = true -> contains (exn_message (KeyError key)) key = true.
Proof.
  intro Hp. unfold contains, exn_message. rewrite (py_repr_plain key Hp).
  destruct (index_append key "'") as [n En].
  cbn [String.index]. rewrite En.
  destruct (String.prefix key (String "'"%char (String.append key "'"))); reflexivity.
Qed.

(** C7, as the specification states it, fails: for the type ["MNIST"] the
    raised error is [KeyError], whose message is ['MNIST'] and names none
    of the accepted types. *)
Lemma keyerror_omits_accepted_set :
  ~ fails_naming_accepted_set
      (get_dataset unit any_dataset no_classes String.append
         (dataset_args "MNIST" "RandomResizedCrop") [])
      "MNIST" (dict_keys _dataset_dict).
Proof.
  intros [e [E [_ H]]]. vm_compute in E. injection E as <-.
  inversion H as [| k ks Hk _]. vm_compute in Hk. discriminate Hk.
Qed.

(** C7, amended. A dataset type outside the registry makes [get_dataset]
    raise on its first line, before any transform is built and before any
    dataset class is called; the error is the [KeyError] of the type given.
    When the type is made of printable ASCII characters other than the
    quote and the backslash, the message of the error is exactly the type
    between single quotes, and so names the invalid value. *)
Theorem get_dataset_unknown_type (Dataset : Type)
    (construct : DatasetClass -> CtorArgs -> Exc Dataset)
    (classes : Dataset -> list string) (path_join : string -> string -> string)
    (args : DatasetArgs) :
  str_in (dataset_type args) (dict_keys _dataset_dict) = false ->
  get_dataset Dataset construct classes path_join args []
  = ([], inl (KeyError (dataset_type args))) /\
  (plain (dataset_type args) = true ->
   exn_message (KeyError (dataset_type args))
   = String "'"%char (String.append (dataset_type args) "'") /\
   contains (exn_message (KeyError (dataset_type args))) (dataset_type args) = true).
Proof.
  intro H. split.
  - unfold get_dataset, bbind, lift.
    rewrite (dict_getitem_missing _dataset_dict (dataset_type args) H). reflexivity.
  - intro Hp. split; [apply py_repr_plain; exact Hp | apply KeyError_names_key; exact Hp].
Qed.

(** A run of [get_dataset_unknown_type] on the type ["MNIST"]. *)
Lemma get_dataset_unknown_type_witness :
  get_dataset unit any_dataset no_classes String.append
    (dataset_args "MNIST" "RandomResizedCrop") []
  = ([], inl (KeyError "MNIST")) /\
  exn_message (KeyError "MNIST") = "'MNIST'"%string /\
  contains (exn_message (KeyError "MNIST")) "MNIST" = true.
Proof.
  destruct (get_dataset_unknown_type unit any_dataset no_classes String.append
              (dataset_args "MNIST" "RandomResizedCrop") eq_refl) as [E N].
  destruct (N eq_refl) as [M C].
  split; [exact E | split; [exact M | exact C]].
Defined.

(** * Further properties of the mixing operators *)

(** ** The shift *)

(** The shifted batch holds the samples of the batch, each once. *)
Theorem roll_permutation {A : Type} (shifts : nat) (t : list A) :
  Permutation (roll shifts t) t.
Proof.
  unfold roll. destruct (length t) as [|n]; [apply Permutation_refl|].
  set (k := (S n - shifts mod S n)%nat).
  rewrite <- (firstn_skipn k t) at 3. apply Permutation_app_comm.
Qed.

(** In a batch of two samples or more, the shift by one pairs sample [i]
    with sample [(i - 1) mod N], which is never sample [i] itself. *)
Theorem roll_partner_differs {A : Type} (t : list A) (i : nat) (d : A) :
  (2 <= length t)%nat -> (i < length t)%nat ->
  exists j, (j < length t)%nat /\ j <> i /\
    j = ((i + length t - 1) mod length t)%nat /\
    nth i (roll 1 t) d = nth j t d.
Proof.
  intros HN Hi. exists ((i + length t - 1) mod length t)%nat.
  split; [apply Nat.mod_upper_bound; lia|]. split; [| split; [reflexivity|]].
  - destruct i as [|i].
    + replace (0 + length t - 1)%nat with (length t - 1)%nat by lia.
      rewrite Nat.mod_small by lia. lia.
    + replace (S i + length t - 1)%nat with (i + 1 * length t)%nat by lia.
      rewrite Nat.Div0.mod_add. rewrite Nat.mod_small by lia. lia.
  - rewrite roll_nth by exact Hi. rewrite roll1_index by exact Hi. reflexivity.
Qed.

(** A run of [roll_partner_differs]: the first of three samples is paired
    with the last. *)
Lemma roll_partner_differs_witness :
  exists j, (j < 3)%nat /\ j <> 0%nat /\ j = 2%nat /\
    nth 0 (roll 1 [10; 20; 30]%Z) 0%Z = nth j [10; 20; 30]%Z 0%Z.
Proof.
  apply (roll_partner_differs [10; 20; 30]%Z 0 0%Z); simpl; lia.
Defined.

(** ** Sizes *)

Lemma one_hot_length (labels : list Z) (num_classes : Z) (w : list (list Q)) :
  one_hot labels num_classes = inr w -> length w = length labels.
Proof.
  unfold one_hot. destruct labels as [|c l].
  - destruct (num_classes <=? 0)%Z; [discriminate|]. intro E. injection E as <-. reflexivity.
  - destruct (existsb _ _); [discriminate|].
    destruct (num_classes =? -1)%Z.
    + intro E. injection E as <-. simpl. rewrite length_map. reflexivity.
    + destruct (num_classes <=? _)%Z; [discriminate|].
      intro E. injection E as <-. simpl. rewrite length_map. reflexivity.
Qed.

Lemma promote_length (target : Target) (nclass : Z) (t : list (list Q)) :
  promote target nclass = inr t -> length t = target_len target.
Proof.
  destruct target as [labels | w]; simpl.
  - apply one_hot_length.
  - intro E. injection E as <-. reflexivity.
Qed.

Lemma map2_roll_length {A B : Type} (f : A -> A -> B) (t : list A) :
  length (map2 f t (roll 1 t)) = length t.
Proof. rewrite map2_length, roll_length. apply Nat.min_id. Qed.

(** Whatever either operator returns, skipped or not, has the shape of the
    input batch, as many images, and as many target rows as the input
    target has entries. *)
Theorem mix_keeps_sizes (op : MixOp) (g : Rng) (batch : Batch) (target : Target)
    (out : Batch * Target) :
  op_call op g batch target = inr out ->
  shape (fst out) = shape batch /\
  length (data (fst out)) = length (data batch) /\
  target_len (snd out) = target_len target.
Proof.
  destruct (Qlt_le_dec (rand_skip g) (op_p op)) as [Hs | Hs].
  - rewrite op_call_skip by exact Hs. intro E. injection E as <-. auto.
  - rewrite op_call_mix by (apply Qle_not_lt; exact Hs).
    destruct op as [m | c]; simpl.
    + intro E. apply MixUP_mix_inv in E. destruct E as [t [Ep ->]]. simpl.
      split; [reflexivity|]. split.
      * unfold lerp4. apply map2_roll_length.
      * unfold lerp2. rewrite map2_roll_length. eapply promote_length. exact Ep.
    + unfold CutMix_mix.
      destruct (promote target (cutmix_nclass c)) as [e | t] eqn:Ep; simpl; [discriminate|].
      destruct (shape batch) as [[[B C] H] W] eqn:Es.
      destruct (swap_box _ H W g) as [e | [[[x0 x1] y0] y1]]; simpl; [discriminate|].
      destruct (py_truediv _ _) as [e | q]; simpl; [discriminate|].
      intro E. injection E as <-. simpl.
      split; [reflexivity|]. split.
      * unfold paste. apply map2_roll_length.
      * unfold lerp2. rewrite map2_roll_length. eapply promote_length. exact Ep.
Qed.

(** A run of [mix_keeps_sizes]: [CutMix] on two 4x4 images. *)
Lemma mix_keeps_sizes_witness :
  exists out,
    op_call (OpCutMix cutmix_p0) row0_col_half two_wide_images two_labels = inr out /\
    shape (fst out) = (2, 1, 4, 4)%nat /\
    length (data (fst out)) = 2%nat /\
    target_len (snd out) = 2%nat.
Proof.
  eexists. split; [reflexivity|].
  apply (mix_keeps_sizes (OpCutMix cutmix_p0) row0_col_half two_wide_images two_labels).
  reflexivity.
Defined.

(** ** One-hot promotion *)

Lemma nth_map_seq {A : Type} (f : nat -> A) (k j : nat) (d : A) :
  (j < k)%nat -> nth j (map f (seq 0 k)) d = f j.
Proof.
  intro Hj.
  rewrite (nth_indep _ d (f 0%nat)) by (rewrite length_map, length_seq; exact Hj).
  rewrite map_nth. rewrite seq_nth by exact Hj. reflexivity.
Qed.

Lemma one_hot_row_nth (k : nat) (c : Z) (j : nat) :
  (j < k)%nat ->
  nth j (one_hot_row k c) 0 = if (Z.of_nat j =? c)%Z then 1 else 0.
Proof.
  intro Hj. unfold one_hot_row. rewrite nth_map_seq by exact Hj. reflexivity.
Qed.

Lemma list_max_lt (l : list Z) (b : Z) :
  (0 < b)%Z -> Forall (fun c => (0 <= c < b)%Z) l -> (list_max l < b)%Z.
Proof.
  intros Hb H. induction H as [|c l Hc _ IH]; simpl; lia.
Qed.

(** With a positive class count and every label in [[0, nclass)], the
    promotion of a hard target raises nothing: it gives one row of [nclass]
    entries per label, holding 1 at the index of the label and 0
    elsewhere. *)
Theorem one_hot_entries (labels : list Z) (nclass : Z) :
  (0 < nclass)%Z ->
  Forall (fun c => (0 <= c < nclass)%Z) labels ->
  exists w,
    promote (Hard labels) nclass = inr w /\
    length w = length labels /\
    forall i, (i < length labels)%nat ->
      length (nth i w []) = Z.to_nat nclass /\
      forall j, (j < Z.to_nat nclass)%nat ->
        nth j (nth i w []) 0 = if (Z.of_nat j =? nth i labels 0%Z)%Z then 1 else 0.
Proof.
  intros Hn Hl.
  assert (E : one_hot labels nclass = inr (map (one_hot_row (Z.to_nat nclass)) labels)).
  { unfold one_hot. destruct labels as [|c0 l].
    - destruct (Z.leb_spec nclass 0); [lia | reflexivity].
    - set (labels := c0 :: l) in *.
      assert (Hneg : existsb (fun c => (c <? 0)%Z) labels = false).
      { destruct (existsb (fun c => (c <? 0)%Z) labels) eqn:Ex; [| reflexivity].
        apply existsb_exists in Ex. destruct Ex as [c [Hin Hc]].
        apply Z.ltb_lt in Hc.
        pose proof (proj1 (Forall_forall _ _) Hl c Hin) as Hr. simpl in Hr. lia. }
      rewrite Hneg.
      destruct (Z.eqb_spec nclass (-1)); [lia|].
      pose proof (list_max_lt labels nclass Hn Hl).
      destruct (Z.leb_spec nclass (list_max labels)); [lia | reflexivity]. }
  eexists. split; [exact E|]. split; [apply length_map|].
  intros i Hi.
  rewrite (nth_indep _ [] (one_hot_row (Z.to_nat nclass) 0%Z))
    by (rewrite length_map; exact Hi).
  rewrite map_nth. split; [apply one_hot_row_length|].
  intros j Hj. apply one_hot_row_nth. exact Hj.
Qed.

(** A run of [one_hot_entries]: labels 0 and 1 with two classes. *)
Lemma one_hot_entries_witness :
  exists w,
    promote two_labels 2 = inr w /\
    length w = 2%nat /\
    nth 1 (nth 1 w []) 0 = 1.
Proof.
  destruct (one_hot_entries [0; 1]%Z 2) as [w [E [L Hw]]].
  - lia.
  - repeat constructor; lia.
  - exists w. split; [exact E|]. split; [exact L|].
    destruct (Hw 1%nat) as [_ Hrow]; [simpl; lia|].
    apply (Hrow 1%nat). simpl. lia.
Defined.

(** A hard target with a label outside [[0, nclass)] is not checked when
    the call is skipped: the call then returns it as it is.  When the call
    is not skipped, both operators raise the [RuntimeError] of [one_hot]. *)
Theorem label_out_of_range (op : MixOp) (g : Rng) (batch : Batch)
    (labels : list Z) (c : Z) :
  In c labels ->
  (c < 0 \/ op_nclass op <= c)%Z ->
  op_nclass op <> (-1)%Z ->
  (rand_skip g < op_p op ->
     op_call op g batch (Hard labels) = inr (batch, Hard labels)) /\
  (~ rand_skip g < op_p op ->
     exists msg, op_call op g batch (Hard labels) = inl (RuntimeError msg)).
Proof.
  intros Hin Hc Hn. split; [apply op_call_skip|].
  intro Hs. rewrite op_call_mix by exact Hs.
  assert (E : exists msg, one_hot labels (op_nclass op) = inl (RuntimeError msg)).
  { unfold one_hot. destruct labels as [|c0 l]; [destruct Hin|].
    set (ls := c0 :: l) in *.
    destruct (existsb (fun c => (c <? 0)%Z) ls) eqn:Ex; [eexists; reflexivity|].
    assert (Hpos : (0 <= c)%Z).
    { destruct (Z.ltb_spec c 0) as [Hlt|]; [| assumption].
      assert (existsb (fun c => (c <? 0)%Z) ls = true).
      { apply existsb_exists. exists c. split; [exact Hin | apply Z.ltb_lt; exact Hlt]. }
      congruence. }
    destruct (Z.eqb_spec (op_nclass op) (-1)); [contradiction|].
    pose proof (list_max_ge ls c Hin).
    destruct (Z.leb_spec (op_nclass op) (list_max ls)); [eexists; reflexivity | lia]. }
  destruct E as [msg E]. exists msg.
  destruct op as [m | cm]; simpl in *.
  - unfold MixUP_mix. simpl. rewrite E. reflexivity.
  - unfold CutMix_mix. simpl. rewrite E. reflexivity.
Qed.

(** A run of [label_out_of_range]: label 5 with two classes, [p = 0]. *)
Lemma label_out_of_range_witness :
  exists msg,
    op_call (OpMixUP mixup_p0) corner_draws two_images (Hard [0; 5]%Z)
    = inl (RuntimeError msg).
Proof.
  destruct (label_out_of_range (OpMixUP mixup_p0) corner_draws two_images
              [0; 5]%Z 5%Z) as [_ Hraise].
  - simpl. auto.
  - simpl. lia.
  - simpl. lia.
  - apply Hraise. intro H. vm_compute in H. discriminate H.
Defined.

(** ** The two ends of the ratio *)

Section PointwiseEnds.

Context {A : Type} (P : A -> Prop) (R : A -> A -> Prop) (f : A -> A -> A).

Lemma map2_Forall2_fst (l m : list A) :
  (forall a b, P a -> P b -> R (f a b) a) ->
  Forall P l -> Forall P m -> length l = length m ->
  Forall2 R (map2 f l m) l.
Proof.
  intros Hf Hl. revert m. induction Hl as [|a l Ha Hl IH]; intros [|b m] Hm Hlen;
    simpl in *; try discriminate; constructor.
  - apply Hf; [exact Ha | exact (Forall_inv Hm)].
  - apply IH; [exact (Forall_inv_tail Hm) | lia].
Qed.

Lemma map2_Forall2_snd (l m : list A) :
  (forall a b, P a -> P b -> R (f a b) b) ->
  Forall P l -> Forall P m -> length l = length m ->
  Forall2 R (map2 f l m) m.
Proof.
  intros Hf Hl. revert m. induction Hl as [|a l Ha Hl IH]; intros [|b m] Hm Hlen;
    simpl in *; try discriminate; constructor.
  - apply Hf; [exact Ha | exact (Forall_inv Hm)].
  - apply IH; [exact (Forall_inv_tail Hm) | lia].
Qed.

End PointwiseEnds.

Lemma lerp_zero (ratio x y : Q) : ratio == 0 -> lerp ratio x y == x.
Proof. intro H. unfold lerp. rewrite H. ring. Qed.

Lemma lerp_one (ratio x y : Q) : ratio == 1 -> lerp ratio x y == y.
Proof. intro H. unfold lerp. rewrite H. ring. Qed.

Lemma lerp3_zero (ratio : Q) (C H W : nat) (x y : image) :
  ratio == 0 -> image_shape C H W x -> image_shape C H W y ->
  teq3 (lerp3 ratio x y) x.
Proof.
  intros Hr [Lx Hx] [Ly Hy].
  apply (map2_Forall2_fst
           (fun p : plane => length p = H /\ Forall (fun row => length row = W) p));
    [| exact Hx | exact Hy | congruence].
  intros p q [Lp Hp] [Lq Hq].
  apply (map2_Forall2_fst (fun row : list Q => length row = W));
    [| exact Hp | exact Hq | congruence].
  intros a b La Lb.
  apply (map2_Forall2_fst (fun _ : Q => True));
    [| apply Forall_forall; auto | apply Forall_forall; auto | congruence].
  intros u v _ _. apply lerp_zero. exact Hr.
Qed.

Lemma lerp3_one (ratio : Q) (C H W : nat) (x y : image) :
  ratio == 1 -> image_shape C H W x -> image_shape C H W y ->
  teq3 (lerp3 ratio x y) y.
Proof.
  intros Hr [Lx Hx] [Ly Hy].
  apply (map2_Forall2_snd
           (fun p : plane => length p = H /\ Forall (fun row => length row = W) p));
    [| exact Hx | exact Hy | congruence].
  intros p q [Lp Hp] [Lq Hq].
  apply (map2_Forall2_snd (fun row : list Q => length row = W));
    [| exact Hp | exact Hq | congruence].
  intros a b La Lb.
  apply (map2_Forall2_snd (fun _ : Q => True));
    [| apply Forall_forall; auto | apply Forall_forall; auto | congruence].
  intros u v _ _. apply lerp_one. exact Hr.
Qed.

(** On a batch whose images all have the recorded shape, a [MixUP] call
    that is not skipped returns the images numerically unchanged when the
    drawn ratio is 0 (Dirichlet component 1), and returns the shifted
    images when the drawn ratio is 1 (Dirichlet component 0). *)
Theorem mixup_ratio_ends (self : MixUP) (g : Rng) (batch : Batch) (target : Target)
    (t : list (list Q)) :
  wf_batch batch ->
  promote target (mixup_nclass self) = inr t ->
  ~ rand_skip g < mixup_p self ->
  (dirichlet0 g (mixup_alpha self) == 1 ->
     exists batch' target',
       MixUP_call self g batch target = inr (batch', target') /\
       teq4 (data batch') (data batch)) /\
  (dirichlet0 g (mixup_alpha self) == 0 ->
     exists batch' target',
       MixUP_call self g batch target = inr (batch', target') /\
       teq4 (data batch') (roll 1 (data batch))).
Proof.
  intros Hwf Ep Hs.
  pose proof (op_call_mix (OpMixUP self) g batch target Hs) as Ec. simpl in Ec.
  rewrite Ec, (MixUP_mix_returns self g batch target t Ep).
  unfold wf_batch in Hwf. destruct (shape batch) as [[[B C] H] W].
  destruct Hwf as [_ Hsh].
  split; intro Hd; eexists; eexists; (split; [reflexivity|]); simpl data; unfold lerp4.
  - apply (map2_Forall2_fst (image_shape C H W));
      [| exact Hsh | apply roll_Forall; exact Hsh | symmetry; apply roll_length].
    intros x y Hx Hy. apply (lerp3_zero _ C H W); [rewrite Hd; ring | exact Hx | exact Hy].
  - apply (map2_Forall2_snd (image_shape C H W));
      [| exact Hsh | apply roll_Forall; exact Hsh | symmetry; apply roll_length].
    intros x y Hx Hy. apply (lerp3_one _ C H W); [rewrite Hd; ring | exact Hx | exact Hy].
Qed.

(** A run of [mixup_ratio_ends]: a drawn ratio of 1 on two images returns
    them in shifted order. *)
Lemma mixup_ratio_ends_witness :
  exists batch' target',
    MixUP_call mixup_p0 (mkRng 0 (1 # 2) (fun _ => 0) 0 0) two_images two_labels
    = inr (batch', target') /\
    teq4 (data batch') [img_b; img_a].
Proof.
  destruct (mixup_ratio_ends mixup_p0 (mkRng 0 (1 # 2) (fun _ => 0) 0 0)
              two_images two_labels [[1; 0]; [0; 1]]) as [_ Hone].
  - split; [reflexivity|]. repeat constructor.
  - reflexivity.
  - intro H. vm_compute in H. discriminate H.
  - apply Hone. reflexivity.
Defined.

(** ** Weights between 0 and 1 *)

Lemma lerp_unit (ratio x y : Q) :
  0 <= ratio <= 1 -> 0 <= x <= 1 -> 0 <= y <= 1 -> 0 <= lerp ratio x y <= 1.
Proof.
  intros [Hr0 Hr1] [Hx0 Hx1] [Hy0 Hy1]. unfold lerp.
  assert (H1 : 0 <= x * (1 - ratio)) by (apply Qmult_le_0_compat; lra).
  assert (H2 : 0 <= y * ratio) by (apply Qmult_le_0_compat; lra).
  assert (H3 : 0 <= (1 - x) * (1 - ratio)) by (apply Qmult_le_0_compat; lra).
  assert (H4 : 0 <= (1 - y) * ratio) by (apply Qmult_le_0_compat; lra).
  split; [lra|].
  assert (E : x * (1 - ratio) + y * ratio
              == 1 - ((1 - x) * (1 - ratio) + (1 - y) * ratio)) by ring.
  rewrite E. lra.
Qed.

Lemma lerp2_roll_unit (ratio : Q) (t : list (list Q)) :
  0 <= ratio <= 1 -> weights_in_unit t -> weights_in_unit (lerp2 ratio t (roll 1 t)).
Proof.
  intros Hr Ht. unfold weights_in_unit, lerp2.
  eapply map2_Forall; [| exact Ht | apply roll_Forall; exact Ht].
  intros a b Ha Hb. unfold lerp1.
  eapply map2_Forall; [| exact Ha | exact Hb].
  intros x y Hx Hy. apply lerp_unit; assumption.
Qed.

Lemma one_hot_row_unit (k : nat) (c : Z) : Forall (fun x => 0 <= x <= 1) (one_hot_row k c).
Proof.
  unfold one_hot_row. apply Forall_map. apply Forall_forall. intros j _.
  destruct (Z.of_nat j =? c)%Z; lra.
Qed.

Lemma one_hot_unit (labels : list Z) (num_classes : Z) (w : list (list Q)) :
  one_hot labels num_classes = inr w -> weights_in_unit w.
Proof.
  unfold one_hot, weights_in_unit. destruct labels as [|c0 l].
  - destruct (num_classes <=? 0)%Z; [discriminate|].
    intro E. injection E as <-. constructor.
  - destruct (existsb _ _); [discriminate|].
    destruct (num_classes =? -1)%Z.
    + intro E. injection E as <-.
      apply (Forall_map _ _ (c0 :: l)). apply Forall_forall. intros c _.
      apply one_hot_row_unit.
    + destruct (num_classes <=? _)%Z; [discriminate|].
      intro E. injection E as <-.
      apply (Forall_map _ _ (c0 :: l)). apply Forall_forall. intros c _.
      apply one_hot_row_unit.
Qed.

(** Targets whose entries are weights: hard, or soft with every entry in
    [[0,1]].  With a drawn ratio in [[0,1]], whatever [MixUP] returns on
    such a target, when not skipped, is a soft target with every entry in
    [[0,1]]. *)
Theorem mixup_weights_in_unit (self : MixUP) (g : Rng) (batch : Batch)
    (target : Target) (out : Batch * Target) :
  match target with Hard _ => True | Soft w => weights_in_unit w end ->
  0 <= dirichlet0 g (mixup_alpha self) <= 1 ->
  ~ rand_skip g < mixup_p self ->
  MixUP_call self g batch target = inr out ->
  exists w, snd out = Soft w /\ weights_in_unit w.
Proof.
  intros Ht Hd Hs.
  pose proof (op_call_mix (OpMixUP self) g batch target Hs) as Ec. simpl in Ec.
  rewrite Ec. intro E. apply MixUP_mix_inv in E. destruct E as [t [Ep ->]].
  eexists. split; [reflexivity|].
  apply lerp2_roll_unit; [lra|].
  destruct target as [labels | w]; simpl in Ep.
  - eapply one_hot_unit. exact Ep.
  - injection Ep as <-. exact Ht.
Qed.

(** A run of [mixup_weights_in_unit]: ratio 0.25 on two labelled images. *)
Lemma mixup_weights_in_unit_witness :
  exists batch' w,
    MixUP_call mixup_p0 row0_col_half two_images two_labels = inr (batch', Soft w) /\
    weights_in_unit w.
Proof.
  assert (Hd : 0 <= dirichlet0 row0_col_half (mixup_alpha mixup_p0) <= 1)
    by (split; intro H; vm_compute in H; discriminate H).
  assert (Hs : ~ rand_skip row0_col_half < mixup_p mixup_p0)
    by (intro H; vm_compute in H; discriminate H).
  destruct (mixup_weights_in_unit mixup_p0 row0_col_half two_images two_labels
              _ I Hd Hs eq_refl) as [w [E Hw]].
  eexists. exists w. simpl in E. rewrite <- E. split; [reflexivity | exact Hw].
Defined.

(** * Further properties of the box of [CutMix] *)

(** [int] of a float that is not negative is its floor. *)
Lemma py_int_floor (x : Q) : 0 <= x -> py_int x = Qfloor x.
Proof.
  destruct x as [n d]. unfold Qle, py_int, Qfloor. simpl. intro H.
  apply Z.quot_div_nonneg; lia.
Qed.

(** [int(u * n)] for a draw [u] of [[0,1)] is an index of [[0, n)]. *)
Lemma py_int_index (u : Q) (n : nat) :
  0 <= u < 1 -> (0 < n)%nat ->
  (0 <= py_int (u * inject_Z (Z.of_nat n)) < Z.of_nat n)%Z.
Proof.
  intros [Hlo Hhi] Hn.
  assert (HnQ : 0 < inject_Z (Z.of_nat n))
    by (change 0 with (inject_Z 0); rewrite <- Zlt_Qlt; lia).
  set (q := u * inject_Z (Z.of_nat n)).
  assert (Hq0 : 0 <= q) by (unfold q; apply Qmult_le_0_compat; lra).
  assert (Hq1 : q < inject_Z (Z.of_nat n)).
  { unfold q. rewrite <- (Qmult_1_l (inject_Z (Z.of_nat n))) at 2.
    apply Qmult_lt_compat_r; assumption. }
  rewrite py_int_floor by exact Hq0. split.
  - change 0%Z with (Qfloor 0). apply Qfloor_resp_le. exact Hq0.
  - rewrite Zlt_Qlt. eapply Qle_lt_trans; [apply Qfloor_le | exact Hq1].
Qed.

(** For a ratio of [[0,1]] the half extent of an axis of length [n] is
    between 0 and [n / 2]: the nominal box, of twice the half extent, is
    never larger than the image. *)
Theorem half_extent_bound (ratio : Q) (n : nat) :
  0 <= ratio <= 1 ->
  exists h, half_extent ratio n = inr h /\ (0 <= h)%Z /\ (2 * h <= Z.of_nat n)%Z.
Proof.
  intros [Hr0 Hr1].
  destruct (half_extent_spec ratio n Hr0) as [h [E [Hh [Hlo _]]]].
  exists h. split; [exact E|]. split; [exact Hh|].
  set (m := Z.of_nat n) in *.
  assert (Hm : (0 <= m)%Z) by (unfold m; lia).
  assert (Hsq : inject_Z (h * h) <= inject_Z (m * m) / 4).
  { eapply Qle_trans; [exact Hlo|].
    apply Qmult_le_compat_r; [| apply Qinv_le_0_compat; lra].
    rewrite inject_Z_mult. rewrite <- Qmult_assoc.
    rewrite <- (Qmult_1_l (inject_Z m * inject_Z m)) at 2.
    apply Qmult_le_compat_r; [exact Hr1|].
    rewrite <- inject_Z_mult. change 0 with (inject_Z 0). rewrite <- Zle_Qle. nia. }
  assert (H4 : (4 * (h * h) <= m * m)%Z).
  { rewrite Zle_Qle. rewrite inject_Z_mult.
    change (inject_Z 4) with 4.
    generalize dependent (inject_Z (h * h)). generalize (inject_Z (m * m)).
    intros B A _ HA.
    assert (EB : B == (B / 4) * 4) by field.
    rewrite EB. rewrite (Qmult_comm 4 A). apply Qmult_le_compat_r; [exact HA | lra]. }
  nia.
Qed.

(** A run of [half_extent_bound]: ratio 0.25 on an axis of length 8. *)
Lemma half_extent_bound_witness :
  exists h, half_extent (1 # 4) 8 = inr h /\ (0 <= h)%Z /\ (2 * h <= 8)%Z.
Proof.
  apply (half_extent_bound (1 # 4) 8).
  split; intro H; vm_compute in H; discriminate H.
Defined.

(** With a ratio that has a square root and a row draw of [[0,1)], the
    box is returned with [0 <= start_x <= end_x <= H]: the row range is
    inside the image.  The column bounds satisfy [0 <= start_y] and
    [0 <= end_y <= W], so no slice bound is ever negative. *)
Theorem swap_box_bounds (ratio : Q) (H W : nat) (g : Rng) :
  0 <= ratio -> 0 <= rand_r g < 1 -> (0 < H)%nat ->
  exists x0 x1 y0 y1,
    swap_box ratio H W g = inr (x0, x1, y0, y1) /\
    (0 <= x0 <= x1)%Z /\ (x1 <= Z.of_nat H)%Z /\
    (0 <= y0)%Z /\ (0 <= y1 <= Z.of_nat W)%Z.
Proof.
  intros Hr Hu HH. unfold swap_box.
  destruct (half_extent_spec ratio H Hr) as [hh [-> [Hhh _]]].
  destruct (half_extent_spec ratio W Hr) as [wh [-> [Hwh _]]].
  pose proof (py_int_index (rand_r g) H Hu HH) as Hidx.
  simpl. do 4 eexists. split; [reflexivity|]. lia.
Qed.

(** A run of [swap_box_bounds] on a 10x2 image, row draw 0.9. *)
Lemma swap_box_bounds_witness :
  exists x0 x1 y0 y1,
    swap_box (1 # 25) 10 2 (mkRng 0 (1 # 2) (fun _ => 24 # 25) (9 # 10) 0)
    = inr (x0, x1, y0, y1) /\
    (0 <= x0 <= x1)%Z /\ (x1 <= 10)%Z /\ (0 <= y0)%Z /\ (0 <= y1 <= 2)%Z.
Proof.
  apply (swap_box_bounds (1 # 25) 10 2
           (mkRng 0 (1 # 2) (fun _ => 24 # 25) (9 # 10) 0)).
  - intro H. vm_compute in H. discriminate H.
  - split; [intro H | ]; vm_compute; [discriminate H | reflexivity].
  - lia.
Defined.

(** On a square image the two half extents agree, so the column range is
    the row range: the box is inside the image and the recomputed ratio
    lies in [[0,1]]. *)
Lemma square_box_ratio (ratio : Q) (n : nat) (g : Rng) :
  0 <= ratio -> 0 <= rand_r g < 1 -> (0 < n)%nat ->
  exists x0 x1 r,
    swap_box ratio n n g = inr (x0, x1, x0, x1) /\
    (0 <= x0 <= x1)%Z /\ (x1 <= Z.of_nat n)%Z /\
    box_ratio (x0, x1, x0, x1) n n = inr r /\
    0 <= r <= 1.
Proof.
  intros Hr Hu Hn. unfold swap_box.
  destruct (half_extent_spec ratio n Hr) as [hh [-> [Hhh _]]].
  pose proof (py_int_index (rand_r g) n Hu Hn) as Hidx.
  simpl.
  set (r0 := py_int (rand_r g * inject_Z (Z.of_nat n))) in *.
  set (x0 := Z.max (r0 - hh) 0). set (x1 := Z.min (r0 + hh) (Z.of_nat n)).
  assert (Hx : (0 <= x0 <= x1)%Z /\ (x1 <= Z.of_nat n)%Z) by (unfold x0, x1; lia).
  destruct Hx as [Hx01 Hx1].
  exists x0, x1. eexists. split; [reflexivity|]. split; [exact Hx01|]. split; [exact Hx1|].
  pose proof (box_ratio_returns (x0, x1, x0, x1) n n Hn Hn) as Er. simpl in Er.
  split; [exact Er|].
  set (a := ((x1 - x0) * (x1 - x0))%Z). set (m := (Z.of_nat n * Z.of_nat n)%Z).
  assert (Ha : (0 <= a <= m)%Z) by (unfold a, m; nia).
  assert (Hm : (0 < m)%Z) by (unfold m; nia).
  assert (HmQ : 0 < inject_Z m) by (change 0 with (inject_Z 0); rewrite <- Zlt_Qlt; exact Hm).
  assert (Hq0 : 0 <= inject_Z a / inject_Z m).
  { apply Qle_shift_div_l; [exact HmQ|]. rewrite Qmult_0_l.
    change 0 with (inject_Z 0). rewrite <- Zle_Qle. lia. }
  assert (Hq1 : inject_Z a / inject_Z m <= 1).
  { apply Qle_shift_div_r; [exact HmQ|]. rewrite Qmult_1_l. rewrite <- Zle_Qle. lia. }
  lra.
Qed.


(** With a row draw that is not negative, no bound of the box is
    negative. *)
Lemma swap_box_nonneg (ratio : Q) (H W : nat) (g : Rng) (x0 x1 y0 y1 : Z) :
  0 <= rand_r g ->
  swap_box ratio H W g = inr (x0, x1, y0, y1) ->
  (0 <= x0)%Z /\ (0 <= x1)%Z /\ (0 <= y0)%Z /\ (0 <= y1)%Z.
Proof.
  intros Hu. unfold swap_box, half_extent.
  destruct (Qgtb 0 ratio); simpl; [discriminate|].
  assert (Hr : (0 <= py_int (rand_r g * inject_Z (Z.of_nat H)))%Z).
  { assert (Hq : 0 <= rand_r g * inject_Z (Z.of_nat H)).
    { apply Qmult_le_0_compat; [exact Hu|].
      change 0 with (inject_Z 0). rewrite <- Zle_Qle. lia. }
    rewrite py_int_floor by exact Hq.
    change 0%Z with (Qfloor 0). apply Qfloor_resp_le. exact Hq. }
  intro E. injection E as <- <- <- <-.
  repeat match goal with
         | |- context [Z.sqrt ?z] =>
             lazymatch goal with
             | _ : (0 <= Z.sqrt z)%Z |- _ => fail
             | _ => pose proof (Z.sqrt_nonneg z)
             end
         end.
  lia.
Qed.

(** * Further properties of the paste of [CutMix] *)

Lemma mapi2_from_nth {A B C : Type} (f : nat -> A -> B -> C) (l : list A) (m : list B)
    (k i : nat) (da : A) (db : B) (dc : C) :
  (i < length l)%nat -> (i < length m)%nat ->
  nth i (mapi2_from k f l m) dc = f (k + i)%nat (nth i l da) (nth i m db).
Proof.
  revert m k i. induction l as [|a l IH]; intros [|b m] k [|i]; simpl; intros; try lia.
  - f_equal. lia.
  - rewrite IH by lia. f_equal. lia.
Qed.

Lemma mapi2_from_fst {A B : Type} (f : nat -> A -> B -> A) (l : list A) (m : list B)
    (k : nat) :
  (length l <= length m)%nat ->
  (forall i a b, In a l -> In b m -> f i a b = a) ->
  mapi2_from k f l m = l.
Proof.
  revert m k. induction l as [|a l IH]; intros [|b m] k Hlen Hf; simpl in *;
    try reflexivity; try lia.
  f_equal.
  - apply Hf; left; reflexivity.
  - apply IH; [lia|]. intros i x y Hx Hy. apply Hf; right; assumption.
Qed.

Lemma map2_fst {A B : Type} (f : A -> B -> A) (l : list A) (m : list B) :
  (length l <= length m)%nat ->
  (forall a b, In a l -> In b m -> f a b = a) ->
  map2 f l m = l.
Proof.
  revert m. induction l as [|a l IH]; intros [|b m] Hlen Hf; simpl in *;
    try reflexivity; try lia.
  f_equal.
  - apply Hf; left; reflexivity.
  - apply IH; [lia|]. intros x y Hx Hy. apply Hf; right; assumption.
Qed.

(** For bounds that are not negative, a position of the axis is in the
    slice when it lies between them. *)
Lemma in_slice_plain (start stop : Z) (n i : nat) :
  (0 <= start)%Z -> (0 <= stop)%Z -> (i < n)%nat ->
  in_slice start stop n i = ((start <=? Z.of_nat i) && (Z.of_nat i <? stop))%Z.
Proof.
  intros H0 H1 Hi. unfold in_slice, slice_bound.
  destruct (Z.ltb_spec start 0); [lia|]. destruct (Z.ltb_spec stop 0); [lia|].
  destruct (Z.leb_spec (Z.min start (Z.of_nat n)) (Z.of_nat i)),
           (Z.leb_spec start (Z.of_nat i)),
           (Z.ltb_spec (Z.of_nat i) (Z.min stop (Z.of_nat n))),
           (Z.ltb_spec (Z.of_nat i) stop); simpl; try reflexivity; lia.
Qed.

Lemma image_shape_nth (C H W : nat) (t : list image) (n : nat) :
  Forall (image_shape C H W) t -> (n < length t)%nat -> image_shape C H W (nth n t []).
Proof.
  intros Ht Hn. apply (proj1 (Forall_forall _ _) Ht). apply nth_In. exact Hn.
Qed.

(** [paste], entry by entry, on two stacks of images of one shape: inside
    the two slices the entry of the source, elsewhere that of the
    destination. *)
Lemma paste_pixel (sx ex sy ey : Z) (dst src : list image) (C H W n c i j : nat) :
  Forall (image_shape C H W) dst -> Forall (image_shape C H W) src ->
  length dst = length src ->
  (n < length dst)%nat -> (c < C)%nat -> (i < H)%nat -> (j < W)%nat ->
  pixel (paste sx ex sy ey dst src) n c i j
  = if in_slice sx ex H i && in_slice sy ey W j
    then pixel src n c i j else pixel dst n c i j.
Proof.
  intros Hd Hs Hlen Hn Hc Hi Hj. unfold pixel, paste.
  rewrite (@map2_nth image image image _ dst src n [] [] []) by lia.
  destruct (image_shape_nth C H W dst n Hd Hn) as [Ld Pd].
  destruct (image_shape_nth C H W src n Hs ltac:(lia)) as [Ls Ps].
  set (x := nth n dst []) in *. set (y := nth n src []) in *.
  rewrite (@map2_nth plane plane plane _ x y c [] [] []) by lia.
  assert (Hp : length (nth c x []) = H /\ Forall (fun row => length row = W) (nth c x [])).
  { apply (proj1 (Forall_forall _ _) Pd). apply nth_In. lia. }
  assert (Hq : length (nth c y []) = H /\ Forall (fun row => length row = W) (nth c y [])).
  { apply (proj1 (Forall_forall _ _) Ps). apply nth_In. lia. }
  destruct Hp as [Lp Rp]. destruct Hq as [Lq Rq].
  set (p := nth c x []) in *. set (q := nth c y []) in *.
  unfold paste_plane, mapi2.
  rewrite (mapi2_from_nth _ p q 0 i [] [] []) by lia. simpl Nat.add. rewrite Lp.
  assert (La : length (nth i p []) = W).
  { apply (proj1 (Forall_forall _ _) Rp). apply nth_In. lia. }
  assert (Lb : length (nth i q []) = W).
  { apply (proj1 (Forall_forall _ _) Rq). apply nth_In. lia. }
  destruct (in_slice sx ex H i); simpl; [| reflexivity].
  unfold paste_row, mapi2.
  rewrite (mapi2_from_nth _ _ _ 0 j 0 0 0) by lia. simpl Nat.add. rewrite La.
  reflexivity.
Qed.

(** On a batch whose images have the recorded shape, a [CutMix] call that
    is not skipped and raises nothing returns, at every position, either
    the entry of the input (outside the box) or the entry of the sample
    before it in the batch (rows [x0..x1) and columns [y0..y1)); no entry
    is blended. *)
Theorem cutmix_pixels (self : CutMix) (g : Rng) (batch : Batch) (target : Target)
    (t : list (list Q)) (B C H W : nat) :
  wf_batch batch -> shape batch = (B, C, H, W) ->
  (0 < H)%nat -> (0 < W)%nat ->
  promote target (cutmix_nclass self) = inr t ->
  0 <= 1 - dirichlet0 g (cutmix_alpha self) ->
  0 <= rand_r g < 1 ->
  ~ rand_skip g < cutmix_p self ->
  exists x0 x1 y0 y1 batch' target',
    swap_box (1 - dirichlet0 g (cutmix_alpha self)) H W g = inr (x0, x1, y0, y1) /\
    CutMix_call self g batch target = inr (batch', target') /\
    forall n c i j, (n < B)%nat -> (c < C)%nat -> (i < H)%nat -> (j < W)%nat ->
      pixel (data batch') n c i j
      = if ((x0 <=? Z.of_nat i) && (Z.of_nat i <? x1)
            && ((y0 <=? Z.of_nat j) && (Z.of_nat j <? y1)))%Z
        then pixel (data batch) ((n + B - 1) mod B) c i j
        else pixel (data batch) n c i j.
Proof.
  intros Hwf Es HH HW Ep Hr Hu Hs.
  destruct (CutMix_mix_returns self g batch target t B C H W Ep Es Hr HH HW)
    as [x0 [x1 [y0 [y1 [Eb Em]]]]].
  destruct (swap_box_nonneg _ H W g x0 x1 y0 y1 (proj1 Hu) Eb) as [Hx0 [Hx1 [Hy0 Hy1]]].
  exists x0, x1, y0, y1. eexists. eexists. split; [exact Eb|]. split.
  - pose proof (op_call_mix (OpCutMix self) g batch target Hs) as Ec.
    simpl in Ec. rewrite Ec. exact Em.
  - intros n c i j Hn Hc Hi Hj. simpl data.
    unfold wf_batch in Hwf. rewrite Es in Hwf. destruct Hwf as [LB Hsh].
    rewrite (paste_pixel x0 x1 y0 y1 _ _ C H W n c i j);
      [| exact Hsh | apply roll_Forall; exact Hsh | symmetry; apply roll_length
       | lia | exact Hc | exact Hi | exact Hj].
    rewrite (in_slice_plain x0 x1 H i) by lia.
    rewrite (in_slice_plain y0 y1 W j) by lia.
    unfold pixel at 1. rewrite roll_nth by lia. rewrite roll1_index by lia.
    rewrite LB. reflexivity.
Qed.

(** A run of [cutmix_pixels] on two 4x4 images: the box is rows 0..1 and
    columns 0..1, and the corner entry of the first image becomes that of
    the second. *)
Lemma cutmix_pixels_witness :
  exists batch' target',
    CutMix_call cutmix_p0 row0_col_half two_wide_images two_labels
    = inr (batch', target') /\
    pixel (data batch') 0 0 0 0 = pixel (data two_wide_images) 1 0 0 0 /\
    pixel (data batch') 0 0 1 1 = pixel (data two_wide_images) 0 0 1 1.
Proof.
  destruct (cutmix_pixels cutmix_p0 row0_col_half two_wide_images two_labels
              [[1; 0]; [0; 1]] 2 1 4 4)
    as [x0 [x1 [y0 [y1 [b' [t' [Eb [Ec Hpx]]]]]]]].
  - split; [reflexivity|]. repeat constructor.
  - reflexivity.
  - lia.
  - lia.
  - reflexivity.
  - intro H. vm_compute in H. discriminate H.
  - split; [intro H | ]; vm_compute; [discriminate H | reflexivity].
  - intro H. vm_compute in H. discriminate H.
  - exists b', t'. split; [exact Ec|].
    vm_compute in Eb. injection Eb as <- <- <- <-.
    split; [apply (Hpx 0 0 0 0)%nat | apply (Hpx 0 0 1 1)%nat]; lia.
Defined.

Lemma in_slice_empty (start stop : Z) (n i : nat) :
  (0 <= start)%Z -> (0 <= stop)%Z -> (stop <= start)%Z ->
  in_slice start stop n i = false.
Proof.
  intros H0 H1 H. unfold in_slice.
  assert (Hm : (slice_bound stop n <= slice_bound start n)%Z).
  { unfold slice_bound. destruct (Z.ltb_spec start 0), (Z.ltb_spec stop 0); lia. }
  destruct (Z.leb_spec (slice_bound start n) (Z.of_nat i)),
           (Z.ltb_spec (Z.of_nat i) (slice_bound stop n)); simpl; try reflexivity; lia.
Qed.

Lemma paste_row_empty (sy ey : Z) (dst src : list Q) :
  (0 <= sy)%Z -> (0 <= ey)%Z -> (ey <= sy)%Z ->
  (length dst <= length src)%nat -> paste_row sy ey dst src = dst.
Proof.
  intros H0 H1 He Hlen. unfold paste_row, mapi2. apply mapi2_from_fst; [exact Hlen|].
  intros j a b _ _. rewrite in_slice_empty by assumption. reflexivity.
Qed.

(** A paste over an empty slice, with no negative bound, changes nothing. *)
Lemma paste_empty (sx ex sy ey : Z) (dst src : list image) (C H W : nat) :
  Forall (image_shape C H W) dst -> Forall (image_shape C H W) src ->
  length dst = length src ->
  (0 <= sx)%Z -> (0 <= ex)%Z -> (0 <= sy)%Z -> (0 <= ey)%Z ->
  (ex <= sx \/ ey <= sy)%Z ->
  paste sx ex sy ey dst src = dst.
Proof.
  intros Hd Hs Hlen Hsx Hex Hsy Hey He. unfold paste.
  apply map2_fst; [rewrite Hlen; apply Nat.le_refl|].
  intros x y Hx Hy.
  destruct (proj1 (Forall_forall _ _) Hd x Hx) as [Lx Px].
  destruct (proj1 (Forall_forall _ _) Hs y Hy) as [Ly Py].
  apply map2_fst; [rewrite Lx, Ly; apply Nat.le_refl|]. intros p q Hp Hq.
  destruct (proj1 (Forall_forall _ _) Px p Hp) as [Lp Rp].
  destruct (proj1 (Forall_forall _ _) Py q Hq) as [Lq Rq].
  unfold paste_plane, mapi2. apply mapi2_from_fst; [rewrite Lp, Lq; apply Nat.le_refl|].
  intros i a b Ha Hb.
  destruct He as [He | He].
  - rewrite in_slice_empty by assumption. reflexivity.
  - destruct (in_slice sx ex (length p) i); [| reflexivity].
    apply paste_row_empty; try assumption.
    rewrite (proj1 (Forall_forall _ _) Rp a Ha), (proj1 (Forall_forall _ _) Rq b Hb).
    apply Nat.le_refl.
Qed.

(** When the computed box has no rows or no columns ([x1 <= x0] or
    [y1 <= y0]), a [CutMix] call that is not skipped returns the very batch
    it was given, while the target is still blended. *)
Theorem cutmix_empty_box_keeps_batch (self : CutMix) (g : Rng) (batch : Batch)
    (target : Target) (t : list (list Q)) (B C H W : nat) (x0 x1 y0 y1 : Z) :
  wf_batch batch -> shape batch = (B, C, H, W) ->
  (0 < H)%nat -> (0 < W)%nat ->
  promote target (cutmix_nclass self) = inr t ->
  0 <= 1 - dirichlet0 g (cutmix_alpha self) ->
  0 <= rand_r g < 1 ->
  ~ rand_skip g < cutmix_p self ->
  swap_box (1 - dirichlet0 g (cutmix_alpha self)) H W g = inr (x0, x1, y0, y1) ->
  (x1 <= x0 \/ y1 <= y0)%Z ->
  CutMix_call self g batch target
  = inr (batch,
         Soft (lerp2 (1 - inject_Z ((x1 - x0) * (y1 - y0))
                          / inject_Z (Z.of_nat H * Z.of_nat W))
                     t (roll 1 t))).
Proof.
  intros Hwf Es HH HW Ep Hr Hu Hs Eb He.
  destruct (swap_box_nonneg _ H W g x0 x1 y0 y1 (proj1 Hu) Eb) as [Hx0 [Hx1 [Hy0 Hy1]]].
  pose proof (op_call_mix (OpCutMix self) g batch target Hs) as Ec. simpl in Ec.
  rewrite Ec. unfold CutMix_mix. rewrite Ep. simpl. rewrite Es, Eb. simpl.
  pose proof (box_ratio_returns (x0, x1, y0, y1) H W HH HW) as Er. simpl in Er.
  unfold box_ratio in Er. rewrite Er. simpl.
  unfold wf_batch in Hwf. rewrite Es in Hwf. destruct Hwf as [_ Hsh].
  rewrite (paste_empty x0 x1 y0 y1 _ _ C H W);
    [| exact Hsh | apply roll_Forall; exact Hsh | symmetry; apply roll_length
     | lia | lia | lia | lia | exact He].
  destruct batch as [sh d]. simpl in *. rewrite Es. reflexivity.
Qed.

(** A run of [cutmix_empty_box_keeps_batch]: the box drawn at the corner
    with nominal ratio 0.01. *)
Lemma cutmix_empty_box_keeps_batch_witness :
  exists w,
    CutMix_call cutmix_p0 corner_draws two_images two_labels
    = inr (two_images, Soft w).
Proof.
  eexists.
  apply (cutmix_empty_box_keeps_batch cutmix_p0 corner_draws two_images two_labels
           [[1; 0]; [0; 1]] 2 1 2 2 0 0 0 0).
  - split; [reflexivity|]. repeat constructor.
  - reflexivity.
  - lia.
  - lia.
  - reflexivity.
  - intro H. vm_compute in H. discriminate H.
  - split; [intro H | ]; vm_compute; [discriminate H | reflexivity].
  - intro H. vm_compute in H. discriminate H.
  - reflexivity.
  - lia.
Defined.

(** ** Square images *)

Lemma promote_unit (target : Target) (nclass : Z) (t : list (list Q)) :
  match target with Hard _ => True | Soft w => weights_in_unit w end ->
  promote target nclass = inr t -> weights_in_unit t.
Proof.
  destruct target as [labels | w]; simpl.
  - intros _. apply one_hot_unit.
  - intros H E. injection E as <-. exact H.
Qed.

(** On square images, with a ratio that has a square root and a row draw
    of [[0,1)], a [CutMix] call that is not skipped blends the target with
    a recomputed ratio that lies in [[0,1]]; given a target that is hard or
    has its entries in [[0,1]], the returned soft target has every entry in
    [[0,1]]. *)
Theorem cutmix_square_weights_in_unit (self : CutMix) (g : Rng) (batch : Batch)
    (target : Target) (t : list (list Q)) (B C n : nat) :
  shape batch = (B, C, n, n) -> (0 < n)%nat ->
  match target with Hard _ => True | Soft w => weights_in_unit w end ->
  promote target (cutmix_nclass self) = inr t ->
  0 <= 1 - dirichlet0 g (cutmix_alpha self) ->
  0 <= rand_r g < 1 ->
  ~ rand_skip g < cutmix_p self ->
  exists batch' r_eff,
    CutMix_call self g batch target = inr (batch', Soft (lerp2 r_eff t (roll 1 t))) /\
    0 <= r_eff <= 1 /\
    weights_in_unit (lerp2 r_eff t (roll 1 t)).
Proof.
  intros Es Hn Ht Ep Hr Hu Hs.
  destruct (square_box_ratio _ n g Hr Hu Hn) as [x0 [x1 [r [Eb [_ [_ [Er Hr01]]]]]]].
  destruct (CutMix_mix_returns self g batch target t B C n n Ep Es Hr Hn Hn)
    as [x0' [x1' [y0' [y1' [Eb' Em]]]]].
  rewrite Eb in Eb'. injection Eb' as <- <- <- <-.
  pose proof (box_ratio_returns (x0, x1, x0, x1) n n Hn Hn) as Er'.
  cbv beta iota in Er'. rewrite Er in Er'. injection Er' as Er'.
  pose proof (op_call_mix (OpCutMix self) g batch target Hs) as Ec. simpl in Ec.
  rewrite Ec, Em. eexists. exists r. rewrite <- Er'.
  split; [reflexivity|]. split; [exact Hr01|].
  apply lerp2_roll_unit; [exact Hr01|].
  eapply promote_unit; eassumption.
Qed.

(** A run of [cutmix_square_weights_in_unit] on two 4x4 images. *)
Lemma cutmix_square_weights_in_unit_witness :
  exists batch' r_eff,
    CutMix_call cutmix_p0 row0_col_half two_wide_images two_labels
    = inr (batch', Soft (lerp2 r_eff [[1; 0]; [0; 1]] (roll 1 [[1; 0]; [0; 1]]))) /\
    0 <= r_eff <= 1 /\
    weights_in_unit (lerp2 r_eff [[1; 0]; [0; 1]] (roll 1 [[1; 0]; [0; 1]])).
Proof.
  apply (cutmix_square_weights_in_unit cutmix_p0 row0_col_half two_wide_images
           two_labels [[1; 0]; [0; 1]] 2 1 4).
  - reflexivity.
  - lia.
  - exact I.
  - reflexivity.
  - intro H. vm_compute in H. discriminate H.
  - split; [intro H | ]; vm_compute; [discriminate H | reflexivity].
  - intro H. vm_compute in H. discriminate H.
Defined.

(** * Further properties of the pipeline assembly *)

(** ** The collate function *)

Lemma truthy_false (x : Q) : truthy x = false <-> x == 0.
Proof.
  unfold truthy. rewrite negb_false_iff. apply Qeq_bool_iff.
Qed.

(** The training loader that [get_dataloader] returns has no collate
    function exactly when both [args.mixup] and [args.cutmix] are zero; the
    validation loader never has one. *)
Theorem collate_fn_none_iff (D : Type) (loader_len : DataLoader D -> Z)
    (train_dataset val_dataset : D) (args : LoaderArgs) :
  (dl_collate_fn (fst (fst (get_dataloader D loader_len train_dataset val_dataset args)))
   = None
   <-> (mixup args == 0 /\ cutmix args == 0)) /\
  dl_collate_fn (snd (fst (get_dataloader D loader_len train_dataset val_dataset args)))
  = None.
Proof.
  unfold get_dataloader. destruct (distributed args); cbn [fst snd dl_collate_fn];
    (split; [| reflexivity]);
    unfold collate_fn, mix_collate; rewrite <- !truthy_false;
    destruct (truthy (mixup args)), (truthy (cutmix args)); simpl;
    split; intro H; try discriminate; try reflexivity; try (split; reflexivity);
    destruct H; discriminate.
Qed.

(** With a choice draw of [[0,1)], the collate function never raises the
    index error of the choice: it is the call of one operator of
    [mix_collate], on the batch and target it was given. *)
Theorem collate_applies_one (args : LoaderArgs)
    (f : Rng -> Batch -> Target -> Exc (Batch * Target))
    (g : Rng) (batch : Batch) (target : Target) :
  collate_fn args = Some f ->
  0 <= rand_choice g < 1 ->
  exists op, In op (mix_collate args) /\
    RandomChoice_pick (mix_collate args) g = Some op /\
    f g batch target = op_call op g batch target.
Proof.
  intros Ef Hc. unfold collate_fn in Ef.
  destruct (mix_collate args) as [|op0 ops] eqn:E; [discriminate|].
  injection Ef as <-.
  destruct (RandomChoice_pick_In (op0 :: ops) g) as [op [Ep Hin]];
    [discriminate | exact Hc |].
  exists op. split; [exact Hin|]. split; [exact Ep|].
  unfold RandomChoice_call. rewrite Ep. reflexivity.
Qed.

(** A run of [collate_applies_one]: both operators enabled, choice draw 0. *)
Lemma collate_applies_one_witness :
  exists op, In op (mix_collate both_enabled) /\
    RandomChoice_pick (mix_collate both_enabled) early_draws = Some op /\
    RandomChoice_call (mix_collate both_enabled) early_draws two_images two_labels
    = op_call op early_draws two_images two_labels.
Proof.
  apply (collate_applies_one both_enabled _ early_draws two_images two_labels).
  - reflexivity.
  - split; [intro H | ]; vm_compute; [discriminate H | reflexivity].
Defined.

Lemma Qfloor_unit (q : Q) (k : Z) :
  inject_Z k <= q -> q < inject_Z (k + 1) -> Qfloor q = k.
Proof.
  intros Hlo Hhi.
  pose proof (Qfloor_le q) as H1. pose proof (Qlt_floor q) as H2.
  assert (A : (Qfloor q < k + 1)%Z).
  { rewrite Zlt_Qlt. eapply Qle_lt_trans; [exact H1 | exact Hhi]. }
  assert (B : (k < Qfloor q + 1)%Z).
  { rewrite Zlt_Qlt. eapply Qle_lt_trans; [exact Hlo | exact H2]. }
  lia.
Qed.

(** With both operators enabled, a choice draw below 0.5 selects [MixUP]
    and a draw of [[0.5, 1)] selects [CutMix]. *)
Theorem random_choice_halves (args : LoaderArgs) (g : Rng) :
  truthy (mixup args) = true -> truthy (cutmix args) = true ->
  0 <= rand_choice g < 1 ->
  (rand_choice g < 1 # 2 ->
     RandomChoice_pick (mix_collate args) g
     = Some (OpMixUP (mkMixUP (1 # 2) (mixup args) (num_classes args)))) /\
  (1 # 2 <= rand_choice g ->
     RandomChoice_pick (mix_collate args) g
     = Some (OpCutMix (mkCutMix (1 # 2) (mixup args) (num_classes args)))).
Proof.
  intros Hm Hc [Hlo Hhi]. unfold RandomChoice_pick, mix_collate. rewrite Hm, Hc.
  simpl app. simpl length. split; intro Hu.
  - rewrite (Qfloor_unit _ 0); [reflexivity | |].
    + change (inject_Z 0) with 0. change (inject_Z (Z.of_nat 2)) with 2. lra.
    + change (inject_Z (0 + 1)) with 1. change (inject_Z (Z.of_nat 2)) with 2. lra.
  - rewrite (Qfloor_unit _ 1); [reflexivity | |].
    + change (inject_Z 1) with 1. change (inject_Z (Z.of_nat 2)) with 2. lra.
    + change (inject_Z (1 + 1)) with 2. change (inject_Z (Z.of_nat 2)) with 2. lra.
Qed.

(** A run of [random_choice_halves]: a choice draw of 0.75 selects
    [CutMix]. *)
Lemma random_choice_halves_witness :
  RandomChoice_pick (mix_collate both_enabled) (mkRng (3 # 4) 0 (fun _ => 0) 0 0)
  = Some (OpCutMix (mkCutMix (1 # 2) (1 # 5) 10)).
Proof.
  destruct (random_choice_halves both_enabled (mkRng (3 # 4) 0 (fun _ => 0) 0 0))
    as [_ Hhi].
  - reflexivity.
  - reflexivity.
  - split; [intro H | ]; vm_compute; [discriminate H | reflexivity].
  - apply Hhi. intro H. vm_compute in H. discriminate H.
Defined.

(** ** Rounding to a double *)

Lemma inject_Z_pos (z : Z) : (0 < z)%Z -> 0 < inject_Z z.
Proof. intro H. change 0 with (inject_Z 0). rewrite <- Zlt_Qlt. exact H. Qed.

Lemma pow2_pos (e : Z) : 0 < pow2 e.
Proof.
  unfold pow2. destruct (Z.leb_spec 0 e).
  - apply inject_Z_pos. apply Z.pow_pos_nonneg; lia.
  - apply Qlt_shift_div_l.
    + apply inject_Z_pos. apply Z.pow_pos_nonneg; lia.
    + rewrite Qmult_0_l. reflexivity.
Qed.

Lemma round_half_even_ge_floor (x : Q) : (Qfloor x <= round_half_even x)%Z.
Proof.
  unfold round_half_even.
  destruct (Qle_bool _ _); [destruct (Qeq_bool _ _); [destruct (Z.even _)|]|]; lia.
Qed.

(** [pow2 e] undoes a scaling by [2 ^ (- e)] when [e] is not positive. *)
Lemma pow2_cancel (s e : Z) :
  (e <= 0)%Z -> inject_Z (s * 2 ^ (- e)) * pow2 e == inject_Z s.
Proof.
  intro He. unfold pow2.
  assert (Hp : (0 < 2 ^ (- e))%Z) by (apply Z.pow_pos_nonneg; lia).
  destruct (Z.leb_spec 0 e).
  - assert (e = 0%Z) by lia. subst e. simpl. rewrite Z.mul_1_r. ring.
  - rewrite inject_Z_mult. field.
    intro H0. apply inject_Z_pos in Hp. rewrite H0 in Hp. apply (Qlt_irrefl 0). exact Hp.
Qed.

Lemma ilog2_lower (a : Q) : 0 < a -> pow2 (ilog2 a) <= a.
Proof.
  intro Ha. destruct a as [n d]. unfold ilog2. cbn [Qnum Qden].
  assert (Hn : (0 < n)%Z) by (unfold Qlt in Ha; simpl in Ha; lia).
  destruct (Z.log2_spec n Hn) as [Hn1 _].
  destruct (Z.log2_spec (Z.pos d) (Pos2Z.is_pos d)) as [_ Hd2].
  pose proof (Z.log2_nonneg n) as Lnn. pose proof (Z.log2_nonneg (Z.pos d)) as Ldn.
  remember (Z.log2 n) as ln eqn:Eln. remember (Z.log2 (Z.pos d)) as ld eqn:Eld.
  clear Eln Eld.
  destruct (Qle_bool (pow2 (ln - ld)) (n # d)) eqn:E; [apply Qle_bool_iff; exact E|].
  clear E. unfold pow2. destruct (Z.leb_spec 0 (ln - ld - 1)) as [Hk | Hk].
  - assert (Epow : (2 ^ ln = 2 ^ (ln - ld - 1) * 2 ^ (Z.succ ld))%Z).
    { rewrite <- Z.pow_add_r by lia. f_equal. lia. }
    assert (Hp : (0 < 2 ^ (ln - ld - 1))%Z) by (apply Z.pow_pos_nonneg; lia).
    unfold Qle. simpl. nia.
  - assert (Epow : (2 ^ (Z.succ ld) = 2 ^ ln * 2 ^ (- (ln - ld - 1)))%Z).
    { rewrite <- Z.pow_add_r by lia. f_equal. lia. }
    assert (Hp : (0 < 2 ^ (- (ln - ld - 1)))%Z) by (apply Z.pow_pos_nonneg; lia).
    apply Qle_shift_div_r; [apply inject_Z_pos; exact Hp|].
    unfold Qle. simpl. nia.
Qed.

(** Rounding to a double never takes a number below an integer of at
    most 53 bits that it was not below. *)
Lemma fl64_ge_int (s : Z) (q : Q) :
  (0 <= s < 2 ^ 53)%Z -> inject_Z s <= q -> inject_Z s <= fl64 q.
Proof.
  intros [Hs0 Hs1] Hq. unfold fl64.
  assert (Hs0Q : 0 <= inject_Z s) by (change 0 with (inject_Z 0); rewrite <- Zle_Qle; exact Hs0).
  destruct (Qeq_bool q 0) eqn:E0.
  - apply Qeq_bool_iff in E0. rewrite <- E0. exact Hq.
  - apply Qeq_bool_neq in E0.
    assert (Hpos : 0 < q).
    { apply Qle_lteq in Hs0Q. destruct (Qle_lt_or_eq 0 q) as [H | H]; [lra | exact H |].
      exfalso. apply E0. symmetry. exact H. }
    assert (E1 : Qle_bool 0 q = true) by (apply Qle_bool_iff; lra).
    rewrite E1. unfold fl64_pos.
    set (e := Z.max (ilog2 q - 52) (-1074)).
    pose proof (pow2_pos e) as Hpe.
    pose proof (round_half_even_ge_floor (q / pow2 e)) as Hm.
    destruct (Z.leb_spec e 0) as [He | He].
    + pose proof (pow2_cancel s e He) as Ec.
      assert (Hx : inject_Z (s * 2 ^ (- e)) <= q / pow2 e).
      { apply Qle_shift_div_l; [exact Hpe|]. rewrite Ec. exact Hq. }
      apply Qfloor_resp_le in Hx. rewrite Qfloor_Z in Hx.
      rewrite <- Ec. apply Qmult_le_compat_r; [| lra].
      rewrite <- Zle_Qle. lia.
    + assert (El : ilog2 q = (e + 52)%Z) by (unfold e in *; lia).
      pose proof (ilog2_lower q Hpos) as Hl. rewrite El in Hl.
      assert (P1 : pow2 e = inject_Z (2 ^ e)).
      { unfold pow2. destruct (Z.leb_spec 0 e); [reflexivity | lia]. }
      assert (P2 : pow2 (e + 52) = inject_Z (2 ^ (e + 52))).
      { unfold pow2. destruct (Z.leb_spec 0 (e + 52)); [reflexivity | lia]. }
      assert (Ep : (2 ^ (e + 52) = 2 ^ 52 * 2 ^ e)%Z).
      { rewrite Z.pow_add_r by lia. ring. }
      assert (Hx : inject_Z (2 ^ 52) <= q / pow2 e).
      { apply Qle_shift_div_l; [exact Hpe|]. rewrite P1, <- inject_Z_mult, <- Ep, <- P2.
        exact Hl. }
      apply Qfloor_resp_le in Hx. rewrite Qfloor_Z in Hx.
      remember (round_half_even (q / pow2 e)) as m eqn:Em.
      remember (Qfloor (q / pow2 e)) as f eqn:Ef.
      rewrite P1, <- inject_Z_mult, <- Zle_Qle.
      assert (H2e : (2 <= 2 ^ e)%Z).
      { change 2%Z with (2 ^ 1)%Z at 1. apply Z.pow_le_mono_r; lia. }
      remember (2 ^ e)%Z as P eqn:EP.
      clear - Hs1 Hm Hx H2e.
      assert (Hmf : (2 ^ 52 <= m)%Z) by lia.
      assert (H53 : (2 ^ 52 * 2 <= m * P)%Z) by (apply Z.mul_le_mono_nonneg; lia).
      change (2 ^ 52 * 2)%Z with (2 ^ 53)%Z in H53. lia.
Qed.

(** ** The evaluation transform *)

Lemma floor_div_ge (n : Z) (crop : Q) (r : Z) :
  (0 <= n < 2 ^ 53)%Z -> 0 < crop <= 1 -> floor_div n crop = inr r -> (n <= r)%Z.
Proof.
  intros Hn [Hc0 Hc1]. unfold floor_div.
  destruct (fl64_overflows (inject_Z n)); [discriminate|].
  destruct (Qeq_bool crop 0); [discriminate|].
  destruct (fl64_overflows (fl64 (inject_Z n) / crop)); [discriminate|].
  intro E. injection E as <-.
  pose proof (fl64_ge_int n (inject_Z n) Hn (Qle_refl _)) as H1.
  assert (H0 : 0 <= inject_Z n)
    by (change 0 with (inject_Z 0); rewrite <- Zle_Qle; lia).
  assert (H2 : inject_Z n <= fl64 (inject_Z n) / crop).
  { apply Qle_shift_div_l; [exact Hc0|].
    apply Qle_trans with (inject_Z n); [| exact H1].
    rewrite <- (Qmult_1_r (inject_Z n)) at 2.
    rewrite (Qmult_comm (inject_Z n) crop), (Qmult_comm (inject_Z n) 1).
    apply Qmult_le_compat_r; [exact Hc1 | exact H0]. }
  pose proof (fl64_ge_int n _ Hn H2) as H3.
  apply Qfloor_resp_le in H3. rewrite Qfloor_Z in H3. exact H3.
Qed.

(** Whatever [ValTransform] returns, when the double of the crop ratio
    lies in [(0,1]] and the sizes are not negative and below [2 ^ 53]: the
    pipeline resizes to a size at least that of the centre crop that
    follows, on each side, so the crop never exceeds the resized image;
    the resize is one int in mode ["resize_shorter"] and the pair
    otherwise. *)
Theorem val_resize_covers_crop (size : Size) (resize_mode : string) (crop_ptr : Q)
    (interpolation : string) (mean std : list Q) (l : list Transform) :
  0 < fl64 crop_ptr <= 1 ->
  (0 <= fst (size_pair size) < 2 ^ 53)%Z -> (0 <= snd (size_pair size) < 2 ^ 53)%Z ->
  ValTransform size resize_mode crop_ptr interpolation mean std = inr l ->
  exists im rh rw,
    InterpolationMode_of interpolation = inr im /\
    l = [Resize (if String.eqb resize_mode "resize_shorter"
                 then Int rh else Pair rh rw) im;
         CenterCrop (Pair (fst (size_pair size)) (snd (size_pair size)));
         ToTensor; Normalize mean std] /\
    (fst (size_pair size) <= rh)%Z /\ (snd (size_pair size) <= rw)%Z.
Proof.
  intros Hc Hh Hw. unfold ValTransform.
  destruct (InterpolationMode_of interpolation) as [e | im]; cbn [bind ret raise];
    [discriminate|].
  assert (Hs : (match size with Int n => (n, n) | Pair h w => (h, w) end)
               = (fst (size_pair size), snd (size_pair size)))
    by (destruct size; reflexivity).
  rewrite Hs. clear Hs.
  destruct (floor_div (fst (size_pair size)) (fl64 crop_ptr)) as [e | rh] eqn:E0;
    cbn [bind ret raise]; [discriminate|].
  destruct (floor_div (snd (size_pair size)) (fl64 crop_ptr)) as [e | rw] eqn:E1;
    cbn [bind ret raise]; [discriminate|].
  intro E. injection E as <-. exists im, rh, rw.
  split; [reflexivity|]. split.
  - destruct (String.eqb resize_mode "resize_shorter"); reflexivity.
  - split; eapply floor_div_ge; eassumption.
Qed.

(** A run of [val_resize_covers_crop]: size 224 and crop ratio 0.8, whose
    double is above 0.8; the quotient rounds to 280. *)
Lemma val_resize_covers_crop_witness :
  exists im rh rw,
    InterpolationMode_of "bilinear" = inr im /\
    [Resize (Int 280) BILINEAR; CenterCrop (Pair 224 224); ToTensor; Normalize [] []]
    = [Resize (Int rh) im; CenterCrop (Pair 224 224); ToTensor; Normalize [] []] /\
    (224 <= rh)%Z /\ (224 <= rw)%Z.
Proof.
  apply (val_resize_covers_crop (Int 224) "resize_shorter" (4 # 5) "bilinear" [] []).
  - split; [reflexivity | intro H; vm_compute in H; discriminate H].
  - simpl. lia.
  - simpl. lia.
  - vm_compute. reflexivity.
Defined.

(** ** The training transform *)

Lemma InterpolationMode_of_raises (s : string) (e : exn) :
  InterpolationMode_of s = inl e -> exists msg, e = ValueError msg.
Proof.
  unfold InterpolationMode_of.
  repeat match goal with
         | |- context [if ?b then _ else _] => destruct b; [discriminate|]
         end.
  intro E. injection E as <-. eexists. reflexivity.
Qed.

(** Whatever [TrainTransform] returns is, in this order: the flip if
    [hflip] is not zero; at most one augmentation stage; the stages of the
    resize mode; [ToTensor] and [Normalize]; the random erasing if [remode]
    is not zero. *)
Theorem TrainTransform_stage_order (resize : Size) (resize_mode : string) (pad : Z)
    (scale ratio : Q * Q) (hflip : Q) (auto_aug : option string) (remode : Q)
    (interpolation : string) (mean std : list Q) (l : list Transform) :
  TrainTransform resize resize_mode pad scale ratio hflip auto_aug remode
    interpolation mean std = inr l ->
  exists aug rsz,
    l = (if truthy hflip then [RandomHorizontalFlip hflip] else [])
        ++ aug ++ rsz ++ [ToTensor; Normalize mean std]
        ++ (if truthy remode then [RandomErasing remode] else []) /\
    (length aug <= 1)%nat /\ forallb is_aug_stage aug = true /\
    (length rsz <= 2)%nat /\ forallb is_resize_stage rsz = true.
Proof.
  unfold TrainTransform.
  destruct (InterpolationMode_of interpolation) as [e | im]; simpl; [discriminate|].
  set (aug := match str_truthy auto_aug with
              | Some a =>
                  if String.prefix "ra" a then [RandAugment im]
                  else if String.prefix "ta_wide" a then [TrivialAugmentWide im]
                  else if String.prefix "aa" a then [AutoAugment "imagenet" im]
                  else []
              | None => []
              end).
  set (rsz := if String.eqb resize_mode "RandomResizedCrop"
              then [RandomResizedCrop resize scale ratio im]
              else if String.eqb resize_mode "ResizeRandomCrop"
              then [Resize resize im; RandomCrop resize pad]
              else []).
  intro E. exists aug, rsz. split; [| split; [| split; [| split]]].
  - unfold aug, rsz.
    destruct (String.eqb resize_mode "RandomResizedCrop");
      [| destruct (String.eqb resize_mode "ResizeRandomCrop");
         [| destruct resize_mode; simpl in E]];
      destruct (truthy hflip), (str_truthy auto_aug) as [a0|], (truthy remode);
      try (destruct (String.prefix "ra" a0), (String.prefix "ta_wide" a0),
             (String.prefix "aa" a0));
      simpl in *;
      repeat match type of E with
             | context [if ?b then _ else _] => destruct b
             end;
      try discriminate E; injection E as <-; reflexivity.
  - unfold aug. destruct (str_truthy auto_aug) as [a0|]; simpl; [| lia].
    destruct (String.prefix "ra" a0), (String.prefix "ta_wide" a0),
      (String.prefix "aa" a0); simpl; lia.
  - unfold aug. destruct (str_truthy auto_aug) as [a0|]; simpl; [| reflexivity].
    destruct (String.prefix "ra" a0), (String.prefix "ta_wide" a0),
      (String.prefix "aa" a0); reflexivity.
  - unfold rsz. destruct (String.eqb resize_mode "RandomResizedCrop"),
      (String.eqb resize_mode "ResizeRandomCrop"); simpl; lia.
  - unfold rsz. destruct (String.eqb resize_mode "RandomResizedCrop"),
      (String.eqb resize_mode "ResizeRandomCrop"); reflexivity.
Qed.

(** A run of [TrainTransform_stage_order]: flip, wide trivial
    augmentation, resize then random crop, erasing. *)
Lemma TrainTransform_stage_order_witness :
  exists aug rsz,
    [RandomHorizontalFlip (1 # 2); TrivialAugmentWide BICUBIC;
     Resize (Int 32) BICUBIC; RandomCrop (Int 32) 4;
     ToTensor; Normalize [1 # 2] [1 # 4]; RandomErasing (1 # 4)]
    = [RandomHorizontalFlip (1 # 2)] ++ aug ++ rsz
      ++ [ToTensor; Normalize [1 # 2] [1 # 4]] ++ [RandomErasing (1 # 4)] /\
    (length aug <= 1)%nat /\ forallb is_aug_stage aug = true /\
    (length rsz <= 2)%nat /\ forallb is_resize_stage rsz = true.
Proof.
  apply (TrainTransform_stage_order (Int 32) "ResizeRandomCrop" 4 (8 # 100, 1)
           (3 # 4, 4 # 3) (1 # 2) (Some "ta_wide"%string) (1 # 4) "bicubic"
           [1 # 2] [1 # 4]).
  reflexivity.
Defined.

(** ** The registry and [get_dataset] *)

(** [d[key]] returns exactly when [key in d.keys()], and raises
    [KeyError(key)] otherwise. *)
Theorem dict_getitem_iff {V : Type} (d : list (string * V)) (key : string) :
  ((exists v, dict_getitem d key = inr v) <-> str_in key (dict_keys d) = true) /\
  (dict_getitem d key = inl (KeyError key) <-> str_in key (dict_keys d) = false).
Proof.
  split; split.
  - intros [v E]. destruct (str_in key (dict_keys d)) eqn:Ek; [reflexivity|].
    rewrite (dict_getitem_missing d key Ek) in E. discriminate.
  - apply dict_getitem_present.
  - intro E. destruct (str_in key (dict_keys d)) eqn:Ek; [| reflexivity].
    destruct (dict_getitem_present d key Ek) as [v Ev]. rewrite Ev in E. discriminate.
  - apply dict_getitem_missing.
Qed.

Lemma dict_getitem_raises {V : Type} (d : list (string * V)) (key : string) (e : exn) :
  dict_getitem d key = inl e -> e = KeyError key.
Proof.
  induction d as [|[k v] d IH]; simpl.
  - intro E. injection E as <-. reflexivity.
  - destruct (String.eqb key k); [discriminate | exact IH].
Qed.

Lemma TrainTransform_raises (resize : Size) (resize_mode : string) (pad : Z)
    (scale ratio : Q * Q) (hflip : Q) (auto_aug : option string) (remode : Q)
    (interpolation : string) (mean std : list Q) (e : exn) :
  TrainTransform resize resize_mode pad scale ratio hflip auto_aug remode
    interpolation mean std = inl e ->
  exists msg, e = ValueError msg.
Proof.
  unfold TrainTransform.
  destruct (InterpolationMode_of interpolation) as [e0 | im] eqn:Ei; simpl.
  - intro E. injection E as <-. eapply InterpolationMode_of_raises. exact Ei.
  - destruct (String.eqb resize_mode "RandomResizedCrop");
      [| destruct (String.eqb resize_mode "ResizeRandomCrop");
         [| destruct resize_mode; simpl]];
      intro E;
      repeat match type of E with
             | context [if ?b then _ else _] => destruct b
             end;
      simpl in E; try discriminate E;
      injection E as <-; eexists; reflexivity.
Qed.

Lemma floor_div_raises (n : Z) (crop : Q) (e : exn) :
  floor_div n crop = inl e ->
  (exists msg, e = ZeroDivisionError msg) \/ (exists msg, e = OverflowError msg).
Proof.
  unfold floor_div.
  destruct (fl64_overflows (inject_Z n));
    [intro E; injection E as <-; right; eexists; reflexivity|].
  destruct (Qeq_bool crop 0);
    [intro E; injection E as <-; left; eexists; reflexivity|].
  destruct (fl64_overflows (fl64 (inject_Z n) / crop));
    [intro E; injection E as <-; right; eexists; reflexivity | discriminate].
Qed.

Lemma ValTransform_raises (size : Size) (resize_mode : string) (crop_ptr : Q)
    (interpolation : string) (mean std : list Q) (e : exn) :
  ValTransform size resize_mode crop_ptr interpolation mean std = inl e ->
  (exists msg, e = ValueError msg) \/ (exists msg, e = ZeroDivisionError msg) \/
  (exists msg, e = OverflowError msg).
Proof.
  unfold ValTransform.
  destruct (InterpolationMode_of interpolation) as [e0 | im] eqn:Ei; cbn [bind ret raise].
  - intro E. injection E as <-. left. eapply InterpolationMode_of_raises. exact Ei.
  - destruct (match size with Int n => (n, n) | Pair h w => (h, w) end) as [s0 s1].
    destruct (floor_div s0 (fl64 crop_ptr)) as [e0 | r0] eqn:E0; cbn [bind ret raise].
    + intro E. injection E as <-. right. eapply floor_div_raises. exact E0.
    + destruct (floor_div s1 (fl64 crop_ptr)) as [e1 | r1] eqn:E1; cbn [bind ret raise].
      * intro E. injection E as <-. right. eapply floor_div_raises. exact E1.
      * discriminate.
Qed.

Section GetDatasetFacts.

Variable Dataset : Type.
Variable construct : DatasetClass -> CtorArgs -> Exc Dataset.
Variable classes : Dataset -> list string.
Variable path_join : string -> string -> string.

(** Whatever [get_dataset] raises is the [KeyError] of the dataset type,
    a [ValueError], [ZeroDivisionError] or [OverflowError] of the two
    transform builders, or an exception raised by a dataset class.  The
    branch of lines 195-196, with its [assert] on a string and the unbound
    [train_dataset] after it, is never the source of an exception. *)
Theorem get_dataset_raises_only (args : DatasetArgs) (log log' : list Event) (e : exn) :
  get_dataset Dataset construct classes path_join args log = (log', inl e) ->
  e = KeyError (dataset_type args) \/
  (exists msg, e = ValueError msg) \/
  (exists msg, e = ZeroDivisionError msg) \/
  (exists msg, e = OverflowError msg) \/
  (exists cls a, construct cls a = inl e).
Proof.
  unfold get_dataset, bbind, lift, emit, call_dataset, bret.
  remember (str_in (dataset_type args) (dict_keys _dataset_dict)) as known eqn:Ek.
  symmetry in Ek.
  destruct (dict_getitem _dataset_dict (dataset_type args)) as [e0 | cls] eqn:Ed.
  { simpl. intro E. inversion E; subst. left. exact (dict_getitem_raises _ _ _ Ed). }
  destruct (TrainTransform _ _ _ _ _ _ _ _ _ _ _) as [e0 | tt] eqn:Et.
  { simpl. intro E. inversion E; subst. right. left. exact (TrainTransform_raises _ _ _ _ _ _ _ _ _ _ _ _ Et). }
  destruct (ValTransform _ _ _ _ _ _) as [e0 | vt] eqn:Ev.
  { simpl. intro E. inversion E; subst. right.
    destruct (ValTransform_raises _ _ _ _ _ _ _ Ev) as [H | [H | H]];
      [left | right; left | right; right; left]; exact H. }
  simpl.
  destruct (String.eqb (dataset_type args) "ImageFolder").
  - unfold bbind, emit, lift. simpl.
    destruct (construct cls (Positional _ tt)) as [e0 | d1] eqn:E1.
    { simpl. intro E. inversion E; subst. right. right. right. right. do 2 eexists. exact E1. }
    simpl. destruct (construct cls (Positional _ vt)) as [e0 | d2] eqn:E2.
    { simpl. intro E. inversion E; subst. right. right. right. right. do 2 eexists. exact E2. }
    discriminate.
  - destruct known.
    + unfold bbind, emit, lift. simpl.
      destruct (construct cls (Keywords _ true true tt)) as [e0 | d1] eqn:E1.
      { simpl. intro E. inversion E; subst. right. right. right. right. do 2 eexists. exact E1. }
      simpl. destruct (construct cls (Keywords _ false true vt)) as [e0 | d2] eqn:E2.
      { simpl. intro E. inversion E; subst. right. right. right. right. do 2 eexists. exact E2. }
      discriminate.
    + rewrite (dict_getitem_missing _ _ Ek) in Ed. discriminate.
Qed.

(** When the class of the training dataset raises, [get_dataset] raises
    that very exception, after both transforms were built, and the class
    is never called for the validation dataset. *)
Theorem get_dataset_train_failure (args : DatasetArgs) (cls : DatasetClass)
    (tt vt : list Transform) (e : exn) :
  dict_getitem _dataset_dict (dataset_type args) = inr cls ->
  TrainTransform (train_size args) (train_resize_mode args) (random_crop_pad args)
    (random_crop_scale args) (random_crop_ratio args) (hflip args) (auto_aug args)
    (remode args) (interpolation args) (mean args) (std args) = inr tt ->
  ValTransform (test_size args) (test_resize_mode args) (center_crop_ptr args)
    (interpolation args) (mean args) (std args) = inr vt ->
  construct cls
    (if String.eqb (dataset_type args) "ImageFolder"
     then Positional (path_join (data_dir args) (train_split args)) tt
     else Keywords (data_dir args) true true tt) = inl e ->
  get_dataset Dataset construct classes path_join args []
  = ([BuiltTrainTransform; BuiltValTransform;
      CalledDataset cls
        (if String.eqb (dataset_type args) "ImageFolder"
         then Positional (path_join (data_dir args) (train_split args)) tt
         else Keywords (data_dir args) true true tt)],
     inl e).
Proof.
  intros Ed Et Ev Ec.
  unfold get_dataset, bbind, lift, emit, call_dataset, bret.
  remember (str_in (dataset_type args) (dict_keys _dataset_dict)) as known eqn:Ek.
  symmetry in Ek.
  rewrite Ed, Et, Ev. simpl.
  destruct (String.eqb (dataset_type args) "ImageFolder").
  - unfold bbind, emit, lift. simpl. rewrite Ec. reflexivity.
  - destruct known.
    + unfold bbind, emit, lift. simpl. rewrite Ec. reflexivity.
    + rewrite (dict_getitem_missing _ _ Ek) in Ed. discriminate.
Qed.

End GetDatasetFacts.

(** A run of [get_dataset_raises_only]: a crop ratio of 1e-320, whose
    quotient is infinite. *)
Lemma get_dataset_raises_only_witness :
  get_dataset unit any_dataset no_classes String.append
    (mkDatasetArgs "CIFAR10" (Int 32) "RandomResizedCrop" 4 (8 # 100, 1)
       (3 # 4, 4 # 3) 0 None 0 "bicubic" [] [] (Int 32) "resize_shorter"
       (1 / inject_Z (10 ^ 320)) "data" "train" "val") []
  = ([BuiltTrainTransform],
     inl (OverflowError "cannot convert float infinity to integer")).
Proof.
  assert (E : get_dataset unit any_dataset no_classes String.append
      (mkDatasetArgs "CIFAR10" (Int 32) "RandomResizedCrop" 4 (8 # 100, 1)
         (3 # 4, 4 # 3) 0 None 0 "bicubic" [] [] (Int 32) "resize_shorter"
         (1 / inject_Z (10 ^ 320)) "data" "train" "val") []
    = ([BuiltTrainTransform],
       inl (OverflowError "cannot convert float infinity to integer")))
    by (vm_compute; reflexivity).
  destruct (get_dataset_raises_only unit any_dataset no_classes String.append _ _ _ _ E)
    as [H | [[m H] | [[m H] | [[m H] | [c [a H]]]]]]; try discriminate H.
  exact E.
Defined.

(** A run of [get_dataset_train_failure]: a library whose classes all
    raise. *)
Lemma get_dataset_train_failure_witness :
  get_dataset unit (fun _ _ => inl (RuntimeError "Dataset not found")) no_classes
    String.append (dataset_args "CIFAR10" "RandomResizedCrop") []
  = ([BuiltTrainTransform; BuiltValTransform;
      CalledDataset CIFAR10
        (Keywords "data" true true
           [RandomHorizontalFlip (1 # 2);
            RandomResizedCrop (Int 224) (8 # 100, 1) (3 # 4, 4 # 3) BILINEAR;
            ToTensor; Normalize [1 # 2] [1 # 2]])],
     inl (RuntimeError "Dataset not found")).
Proof.
  apply (get_dataset_train_failure unit
           (fun _ _ => inl (RuntimeError "Dataset not found")) no_classes String.append
           (dataset_args "CIFAR10" "RandomResizedCrop") CIFAR10
           [RandomHorizontalFlip (1 # 2);
            RandomResizedCrop (Int 224) (8 # 100, 1) (3 # 4, 4 # 3) BILINEAR;
            ToTensor; Normalize [1 # 2] [1 # 2]]
           [Resize (Int 256) BILINEAR; CenterCrop (Pair 224 224); ToTensor;
            Normalize [1 # 2] [1 # 2]]
           (RuntimeError "Dataset not found")); reflexivity.
Defined.
